(** * Simulated realtime transcript playback of [CallDetailModal]

    A shallow embedding of the two [useEffect] hooks of the
    [CallDetailModal] component (the init effect and the live-demo effect),
    of the timers they create and of the React render cycle that drives
    them, followed by the properties of the playback.

    The environment is deterministic: a virtual clock that jumps to the due
    time of the next timer, one timer callback per turn of the event loop,
    the state updates of a callback applied in one batch, and the effects of
    the resulting render run before the next timer fires. *)

From Stdlib Require Import Ascii String Decimal DecimalZ.
From Stdlib Require Import List ZArith NArith Lia Bool Arith.
Import ListNotations.

Local Open Scope Z_scope.

(** ** JavaScript strings

    A JavaScript string is a sequence of UTF-16 code units; [length] and
    [slice] count code units. *)

Definition jsstring := list N.

(** The source file is UTF-8 text.  [utf16_units] decodes the bytes of a
    literal into the code units the runtime string holds (a code point above
    the BMP becomes a surrogate pair). *)
Fixpoint utf16_units (bs : list N) : jsstring :=
  match bs with
  | [] => []
  | b0 :: r0 =>
    if (b0 <? 128)%N then b0 :: utf16_units r0
    else match r0 with
    | [] => [b0]
    | b1 :: r1 =>
      if (b0 <? 224)%N then
        N.lor (N.shiftl (N.land b0 31) 6) (N.land b1 63) :: utf16_units r1
      else match r1 with
      | [] => [b0; b1]
      | b2 :: r2 =>
        if (b0 <? 240)%N then
          N.lor (N.shiftl (N.land b0 15) 12)
            (N.lor (N.shiftl (N.land b1 63) 6) (N.land b2 63))
          :: utf16_units r2
        else match r2 with
        | [] => [b0; b1; b2]
        | b3 :: r3 =>
          let cp := N.lor (N.shiftl (N.land b0 7) 18)
                      (N.lor (N.shiftl (N.land b1 63) 12)
                         (N.lor (N.shiftl (N.land b2 63) 6) (N.land b3 63))) in
          let v := (cp - 65536)%N in
          (55296 + N.shiftr v 10)%N :: (56320 + N.land v 1023)%N
          :: utf16_units r3
        end
      end
    end
  end.

Definition utf16 (s : string) : jsstring :=
  utf16_units (map N_of_ascii (list_ascii_of_string s)).

(** [Array.prototype.slice] and [String.prototype.slice]: a negative index
    counts from the end, every index is clamped to [0, length], and an end
    before the start gives the empty result. *)
Definition relative_index (len : nat) (i : Z) : nat :=
  if i <? 0 then Z.to_nat (Z.max (Z.of_nat len + i) 0)
  else Nat.min (Z.to_nat i) len.

Definition slice {A : Type} (l : list A) (start : Z) (end_ : option Z) : list A :=
  let len := length l in
  let k := relative_index len start in
  let final := match end_ with
               | None => len
               | Some e => relative_index len e
               end in
  firstn (final - k) (skipn k l).

(** ** The clock: [Date.now()] and [Date.prototype.toISOString] *)

(** Code units of a decimal numeral. *)
Fixpoint uint_units (d : Decimal.uint) : jsstring :=
  match d with
  | Decimal.Nil => []
  | Decimal.D0 r => 48%N :: uint_units r
  | Decimal.D1 r => 49%N :: uint_units r
  | Decimal.D2 r => 50%N :: uint_units r
  | Decimal.D3 r => 51%N :: uint_units r
  | Decimal.D4 r => 52%N :: uint_units r
  | Decimal.D5 r => 53%N :: uint_units r
  | Decimal.D6 r => 54%N :: uint_units r
  | Decimal.D7 r => 55%N :: uint_units r
  | Decimal.D8 r => 56%N :: uint_units r
  | Decimal.D9 r => 57%N :: uint_units r
  end.

(** Template-literal conversion of an integral number, as in
    [`${Date.now()}`]. *)
Definition Number_toString (n : Z) : jsstring :=
  match Z.to_int n with
  | Decimal.Pos d => uint_units d
  | Decimal.Neg d => 45%N :: uint_units d
  end.

(** Decimal digits of [n], zero-padded on the left to [width] digits. *)
Fixpoint pad (width : nat) (n : Z) : jsstring :=
  match width with
  | O => []
  | S w => pad w (n / 10) ++ [Z.to_N (48 + n mod 10)]
  end.

(** Day count since 1970-01-01 to a proleptic Gregorian (year, month, day). *)
Definition civil_from_days (days : Z) : Z * Z * Z :=
  let z := days + 719468 in
  let era := z / 146097 in
  let doe := z - era * 146097 in
  let yoe := (doe - doe / 1460 + doe / 36524 - doe / 146096) / 365 in
  let doy := doe - (365 * yoe + yoe / 4 - yoe / 100) in
  let mp := (5 * doy + 2) / 153 in
  let d := doy - (153 * mp + 2) / 5 + 1 in
  let m := if mp <? 10 then mp + 3 else mp - 9 in
  let y := yoe + era * 400 + (if m <=? 2 then 1 else 0) in
  (y, m, d).

Definition year_string (y : Z) : jsstring :=
  if (0 <=? y) && (y <=? 9999) then pad 4 y
  else utf16 (if y <? 0 then "-" else "+") ++ pad 6 (Z.abs y).

(** [new Date(ms).toISOString()]: YYYY-MM-DDTHH:mm:ss.sssZ in UTC. *)
Definition toISOString (ms : Z) : jsstring :=
  let days := ms / 86400000 in
  let r := ms mod 86400000 in
  let '(y, m, d) := civil_from_days days in
  year_string y ++ utf16 "-" ++ pad 2 m ++ utf16 "-" ++ pad 2 d
  ++ utf16 "T" ++ pad 2 (r / 3600000)
  ++ utf16 ":" ++ pad 2 (r / 60000 mod 60)
  ++ utf16 ":" ++ pad 2 (r / 1000 mod 60)
  ++ utf16 "." ++ pad 3 (r mod 1000) ++ utf16 "Z".

(** ** Data model: [CallMessage] and [CallRecord] *)

Inductive Role := customer | ai.

Record CallMessage := mkMessage {
  id : jsstring;
  role : Role;
  content : jsstring;
  timestamp : jsstring
}.

Inductive CallStatus := completed | missed | in_progress.

(** The fields of a call record that the two effects read.  [transcript_ref]
    is the identity of the [transcript] array: the dependency list of the
    live-demo effect compares [call.transcript] with [Object.is], that is by
    reference. *)
Record CallRecord := mkCall {
  status : CallStatus;
  transcript_ref : nat;
  transcript : list CallMessage
}.

Definition Role_eqb (a b : Role) : bool :=
  match a, b with
  | customer, customer | ai, ai => true
  | _, _ => false
  end.

Definition CallStatus_eqb (a b : CallStatus) : bool :=
  match a, b with
  | completed, completed | missed, missed | in_progress, in_progress => true
  | _, _ => false
  end.

(** 模拟的后续对话（用于演示通话中状态）: the fixed continuation that the
    component plays after the last message of an in-progress call. *)
Definition simulatedContinuation : list CallMessage := [
  mkMessage (utf16 "sim1") customer (utf16 "我想点一份宫保鸡丁") [];
  mkMessage (utf16 "sim2") ai (utf16 "好的，宫保鸡丁一份 $15.99。请问还需要别的吗？") [];
  mkMessage (utf16 "sim3") customer (utf16 "再来一份炒饭，少放盐") [];
  mkMessage (utf16 "sim4") ai (utf16 "收到，炒饭 $12.99，已备注少放盐。要不要再来点饮料或者小吃？我们的柠檬茶和春卷都挺受欢迎的。") [];
  mkMessage (utf16 "sim5") customer (utf16 "那来一杯柠檬茶吧") [];
  mkMessage (utf16 "sim6") ai (utf16 "好的，柠檬茶 $3.99。您的订单：宫保鸡丁、炒饭少盐、柠檬茶，小计 $32.97。请问外卖还是自取？") [];
  mkMessage (utf16 "sim7") customer (utf16 "外卖，送到 123 Main Street") [];
  mkMessage (utf16 "sim8") ai (utf16 "好的，配送到 123 Main Street。加上配送费和税，总计 $42.55。支付方面，您可以用上次绑定的尾号 4567 的卡直接付款，或者绑定一张新卡，您选哪个？") [];
  mkMessage (utf16 "sim9") customer (utf16 "绑定新卡吧") [];
  mkMessage (utf16 "sim10") ai (utf16 "没问题。我现在给您发一条短信，里面有个链接，点进去就可以绑定新卡了。绑定成功后，下次您报尾号就能直接付款，不用再走一遍这个流程。") [];
  mkMessage (utf16 "sim11") customer (utf16 "好的，我看到短信了") [];
  mkMessage (utf16 "sim12") ai (utf16 "收到您的新卡绑定成功，尾号 8899。已完成扣款 $42.55，订单已生成。预计 30-40 分钟送达，祝您用餐愉快！") []
].

(** ** Component state: the [useState] hooks of [CallDetailModal] *)

Record Hooks := mkHooks {
  displayedMessages : list CallMessage;
  currentTypingText : jsstring;
  isTyping : bool;
  typingRole : Role;
  messageIndex : nat;
  isLiveDemo : bool
}.

Definition initialHooks : Hooks := mkHooks [] [] false ai 0%nat false.

Definition setDisplayedMessages (v : list CallMessage) (h : Hooks) : Hooks :=
  let '(mkHooks d x b r i l) := h in mkHooks v x b r i l.

Definition setCurrentTypingText (v : jsstring) (h : Hooks) : Hooks :=
  let '(mkHooks d x b r i l) := h in mkHooks d v b r i l.

Definition setIsTyping (v : bool) (h : Hooks) : Hooks :=
  let '(mkHooks d x b r i l) := h in mkHooks d x v r i l.

Definition setTypingRole (v : Role) (h : Hooks) : Hooks :=
  let '(mkHooks d x b r i l) := h in mkHooks d x b v i l.

Definition setMessageIndex (v : nat) (h : Hooks) : Hooks :=
  let '(mkHooks d x b r i l) := h in mkHooks d x b r v l.

Definition setIsLiveDemo (v : bool) (h : Hooks) : Hooks :=
  let '(mkHooks d x b r i l) := h in mkHooks d x b r i v.

(** ** Timers

    The three closures the live-demo effect hands to [setTimeout] and
    [setInterval], with the variables each one captures.  [charIndex] is the
    mutable local of the typing interval. *)
Inductive Callback :=
| loopTimer (call : CallRecord)
| pauseTimer (currentMessage : CallMessage) (typingSpeed : Z)
| typeTimer (currentMessage : CallMessage) (charIndex : nat).

Record Timer := mkTimer {
  handle : nat;
  due : Z;
  period : option Z;
  callback : Callback
}.

(** What a timer callback did, as seen from outside. *)
Inductive Event :=
| LoopReset
| TypingStarted (currentMessage : CallMessage)
| Typed (currentMessage : CallMessage) (text : jsstring)
| Committed (newMessage : CallMessage).

(** ** The component instance and its environment

    [now] is the clock read by [Date.now()], [timers] the pending timers of
    the page in creation order, [call] the prop of the last render,
    [live_deps] the dependency values of the last run of the live-demo effect
    and [live_cleanup] the timer its cleanup function clears. *)
Record World := mkWorld {
  now : Z;
  next_handle : nat;
  timers : list Timer;
  mounted : bool;
  call : CallRecord;
  hooks : Hooks;
  live_deps : option (bool * nat * nat);
  live_cleanup : option nat
}.

Definition with_now (v : Z) (w : World) : World :=
  let '(mkWorld t n ts b c h d k) := w in mkWorld v n ts b c h d k.

Definition with_timers (v : list Timer) (w : World) : World :=
  let '(mkWorld t n ts b c h d k) := w in mkWorld t n v b c h d k.

Definition with_mounted (v : bool) (w : World) : World :=
  let '(mkWorld t n ts b c h d k) := w in mkWorld t n ts v c h d k.

Definition with_call (v : CallRecord) (w : World) : World :=
  let '(mkWorld t n ts b c h d k) := w in mkWorld t n ts b v h d k.

Definition with_hooks (v : Hooks) (w : World) : World :=
  let '(mkWorld t n ts b c h d k) := w in mkWorld t n ts b c v d k.

Definition with_live_deps (v : option (bool * nat * nat)) (w : World) : World :=
  let '(mkWorld t n ts b c h d k) := w in mkWorld t n ts b c h v k.

Definition with_live_cleanup (v : option nat) (w : World) : World :=
  let '(mkWorld t n ts b c h d k) := w in mkWorld t n ts b c h d v.

(** A state setter called on an unmounted component does nothing. *)
Definition setState (f : Hooks -> Hooks) (w : World) : World :=
  if mounted w then with_hooks (f (hooks w)) w else w.

Definition schedule (cb : Callback) (delay : Z) (p : option Z) (w : World)
  : nat * World :=
  let '(mkWorld t n ts b c h d k) := w in
  (n, mkWorld t (S n) (ts ++ [mkTimer n (t + delay) p cb]) b c h d k).

Definition setTimeout (cb : Callback) (delay : Z) (w : World) : nat * World :=
  schedule cb delay None w.

Definition setInterval (cb : Callback) (delay : Z) (w : World) : nat * World :=
  schedule cb delay (Some delay) w.

(** [clearTimeout] and [clearInterval] share one pool of handles. *)
Definition clearTimer (h : nat) (w : World) : World :=
  with_timers (filter (fun t => negb (handle t =? h)%nat) (timers w)) w.

Definition clearTimeout := clearTimer.
Definition clearInterval := clearTimer.

(** A thrown exception: the only one the effects can raise is the
    [TypeError] of reading [.role] of [undefined]. *)
Inductive Result (A : Type) :=
| Ok (a : A)
| TypeError.
Arguments Ok {A} a.
Arguments TypeError {A}.

Definition bind {A B : Type} (r : Result A) (k : A -> Result B) : Result B :=
  match r with
  | Ok a => k a
  | TypeError => TypeError
  end.

Notation "x <- r ;; k" := (bind r (fun x => k))
  (at level 61, r at next level, right associativity).

(** ** The effects, the render cycle and the timer callbacks

    The engine is written over the continuation it replays; the component
    is the engine at [simulatedContinuation]. *)
Section Engine.

Variable continuation : list CallMessage.

(** [[...call.transcript.slice(-1), ...simulatedContinuation]] *)
Definition allMessages (c : CallRecord) : list CallMessage :=
  slice (transcript c) (-1) None ++ continuation.

Definition typingSpeed (currentMessage : CallMessage) : Z :=
  if Role_eqb (role currentMessage) ai then 30 else 50.

Definition pauseBeforeTyping (currentMessage : CallMessage) : Z :=
  if Role_eqb (role currentMessage) customer then 1500 else 800.

(** First effect, dependencies [[call]]. *)
Definition initEffect (c : CallRecord) (h : Hooks) : Hooks :=
  if CallStatus_eqb (status c) in_progress then
    setMessageIndex 0%nat
      (setDisplayedMessages (slice (transcript c) 0 (Some (-1)))
         (setIsLiveDemo true h))
  else
    setIsLiveDemo false (setDisplayedMessages (transcript c) h).

(** Second effect, dependencies [[isLiveDemo, messageIndex,
    call.transcript]].  It reads the state of the render it belongs to and
    returns its cleanup, which clears the one timer the effect body itself
    created. *)
Definition liveDemoEffect (w : World) : Result World :=
  let h := hooks w in
  if negb (isLiveDemo h) then Ok (with_live_cleanup None w)
  else
    let all := allMessages (call w) in
    if (length all <=? messageIndex h)%nat then
      let '(timer, w1) := setTimeout (loopTimer (call w)) 3000 w in
      Ok (with_live_cleanup (Some timer) w1)
    else
      match nth_error all (messageIndex h) with
      | None => TypeError
      | Some currentMessage =>
        let '(timer, w1) :=
          setTimeout (pauseTimer currentMessage (typingSpeed currentMessage))
            (pauseBeforeTyping currentMessage) w in
        Ok (with_live_cleanup (Some timer) w1)
      end.

Definition deps (w : World) : bool * nat * nat :=
  (isLiveDemo (hooks w), messageIndex (hooks w), transcript_ref (call w)).

Definition deps_eqb (a b : bool * nat * nat) : bool :=
  let '(a1, a2, a3) := a in
  let '(b1, b2, b3) := b in
  Bool.eqb a1 b1 && (a2 =? b2)%nat && (a3 =? b3)%nat.

Definition runCleanup (w : World) : World :=
  match live_cleanup w with
  | Some timer => clearTimeout timer w
  | None => w
  end.

(** After a render React re-runs the live-demo effect when one of its
    dependencies changed: the previous cleanup first, then the body. *)
Definition commitEffects (w : World) : Result World :=
  let unchanged := match live_deps w with
                   | Some d => deps_eqb d (deps w)
                   | None => false
                   end in
  if unchanged then Ok w
  else liveDemoEffect (with_live_deps (Some (deps w)) (runCleanup w)).

(** Mounting the component on [call] at clock [t0].  Both effects run
    against the first render (where [isLiveDemo] is still false); the state
    updates of the init effect are then flushed in one batch and the effects
    of the second render run. *)
Definition mount (c : CallRecord) (t0 : Z) : Result World :=
  w1 <- commitEffects (mkWorld t0 1%nat [] true c initialHooks None None) ;;
  commitEffects (with_hooks (initEffect c (hooks w1)) w1).

(** The parent re-renders the mounted component with another [call]
    object.  The init effect depends on [[call]] and React compares the
    dependency by identity: it runs for every object other than the one of
    the last render, which is the re-render embedded here (the new object
    may be a copy, and it may share its transcript array with the old one or
    not, which [transcript_ref] tells).  A re-render with the very same
    object runs no effect and changes nothing; it has no embedding. *)
Definition rebind (c : CallRecord) (w : World) : Result World :=
  if mounted w then
    w1 <- commitEffects (with_call c w) ;;
    commitEffects (with_hooks (initEffect c (hooks w1)) w1)
  else Ok w.

(** Unmounting runs the cleanup of the live-demo effect. *)
Definition unmount (w : World) : World :=
  if mounted w then
    with_live_cleanup None (with_mounted false (runCleanup w))
  else w.

(** [newMessage]: the message committed to the list at clock [t]. *)
Definition newMessage (currentMessage : CallMessage) (t : Z) : CallMessage :=
  mkMessage (id currentMessage ++ utf16 "-" ++ Number_toString t)
    (role currentMessage) (content currentMessage) (toISOString t).

Definition set_charIndex (h : nat) (charIndex : nat) (w : World) : World :=
  with_timers
    (map (fun t =>
            if (handle t =? h)%nat then
              match callback t with
              | typeTimer m _ =>
                mkTimer (handle t) (due t) (period t) (typeTimer m charIndex)
              | _ => t
              end
            else t) (timers w)) w.

(** The body of timer [t].  The pause callback ends with
    [return () => clearInterval(typeTimer)]; the value a [setTimeout]
    callback returns is dropped by the runtime, so nothing is registered
    and the embedding has nothing to record for it.  The interval is
    cleared by its own last tick only. *)
Definition fire (t : Timer) (w : World) : Event * World :=
  match callback t with
  | loopTimer c =>
    (LoopReset,
     setState (fun h => setMessageIndex 0%nat
                 (setDisplayedMessages (slice (transcript c) 0 (Some (-1))) h))
       w)
  | pauseTimer currentMessage speed =>
    let w1 := setState (fun h => setCurrentTypingText []
                          (setIsTyping true
                             (setTypingRole (role currentMessage) h))) w in
    (TypingStarted currentMessage,
     snd (setInterval (typeTimer currentMessage 0%nat) speed w1))
  | typeTimer currentMessage charIndex =>
    if (charIndex <? length (content currentMessage))%nat then
      let text := slice (content currentMessage) 0
                    (Some (Z.of_nat charIndex + 1)) in
      (Typed currentMessage text,
       set_charIndex (handle t) (S charIndex)
         (setState (setCurrentTypingText text) w))
    else
      let w1 := clearInterval (handle t) w in
      let m := newMessage currentMessage (now w1) in
      (Committed m,
       setState (fun h => setMessageIndex (S (messageIndex h))
                   (setDisplayedMessages (displayedMessages h ++ [m])
                      (setCurrentTypingText [] (setIsTyping false h))))
         w1)
  end.

(** The pending timer that fires next: the earliest due, the oldest one
    among equals. *)
Fixpoint next_timer (ts : list Timer) : option Timer :=
  match ts with
  | [] => None
  | t :: r =>
    match next_timer r with
    | Some u => if due u <? due t then Some u else Some t
    | None => Some t
    end
  end.

(** A fired timeout leaves the table; a fired interval is armed again one
    period later. *)
Definition rearm (t : Timer) (w : World) : World :=
  with_timers
    (match period t with
     | None => filter (fun u => negb (handle u =? handle t)%nat) (timers w)
     | Some p =>
       map (fun u => if (handle u =? handle t)%nat
                     then mkTimer (handle u) (due u + p) (period u) (callback u)
                     else u) (timers w)
     end) w.

Inductive Outcome :=
| Quiescent
| Fired (e : Event) (w : World)
| Threw.

(** One turn of the event loop: the clock reaches the next timer, its
    callback runs, React flushes the batched updates, renders and runs the
    effects. *)
Definition step (w : World) : Outcome :=
  match next_timer (timers w) with
  | None => Quiescent
  | Some t =>
    let '(e, w1) := fire t (rearm t (with_now (Z.max (now w) (due t)) w)) in
    if mounted w1 then
      match commitEffects w1 with
      | Ok w2 => Fired e w2
      | TypeError => Threw
      end
    else Fired e w1
  end.

(** [n] turns of the event loop, with the events in order.  A world without
    pending timers stays as it is. *)
Fixpoint run (n : nat) (w : World) : Result (list Event * World) :=
  match n with
  | O => Ok ([], w)
  | S n' =>
    match step w with
    | Quiescent => Ok ([], w)
    | Threw => TypeError
    | Fired e w1 =>
      r <- run n' w1 ;; Ok (e :: fst r, snd r)
    end
  end.

(** ** The worlds of a live playback

    Between two timer events a mounted live playback is in one of three
    shapes, each with exactly one pending timer. *)

(** Waiting [pauseBeforeTyping] before message [i] is typed. *)
Definition pausing (c : CallRecord) (i : nat) (m : CallMessage) (t : Z)
    (k : nat) (D : list CallMessage) (r : Role) : World :=
  mkWorld t (S k)
    [mkTimer k (t + pauseBeforeTyping m) None (pauseTimer m (typingSpeed m))]
    true c (mkHooks D [] false r i true)
    (Some (true, i, transcript_ref c)) (Some k).

(** Message [i] is being typed and [j] of its code units are revealed. *)
Definition typing (c : CallRecord) (i : nat) (m : CallMessage) (j : nat)
    (t : Z) (k : nat) (D : list CallMessage) : World :=
  mkWorld t (S (S k))
    [mkTimer (S k) (t + typingSpeed m) (Some (typingSpeed m)) (typeTimer m j)]
    true c (mkHooks D (firstn j (content m)) true (role m) i true)
    (Some (true, i, transcript_ref c)) (Some k).

(** Every message is committed and the loop timer is pending. *)
Definition cooling (c : CallRecord) (t : Z) (k : nat)
    (D : list CallMessage) (r : Role) : World :=
  mkWorld t (S k) [mkTimer k (t + 3000) None (loopTimer c)]
    true c (mkHooks D [] false r (length (allMessages c)) true)
    (Some (true, length (allMessages c), transcript_ref c)) (Some k).

Inductive playing (c : CallRecord) : World -> Prop :=
| playing_pausing i m t k D r :
    nth_error (allMessages c) i = Some m ->
    playing c (pausing c i m t k D r)
| playing_typing i m j t k D :
    nth_error (allMessages c) i = Some m ->
    (j <= length (content m))%nat ->
    playing c (typing c i m j t k D)
| playing_cooling m0 t k D r :
    nth_error (allMessages c) 0 = Some m0 ->
    playing c (cooling c t k D r).

(** A call that is not in progress is bound: its transcript is displayed
    and nothing is pending.  The index and the role are those the playback
    of an earlier call left behind. *)
Definition idle (c : CallRecord) (i : nat) (t : Z) (k : nat) (r : Role)
  : World :=
  mkWorld t k [] true c (mkHooks (transcript c) [] false r i false)
    (Some (false, i, transcript_ref c)) None.

(** ** Sessions

    A session of the component: it is mounted on a call, timer events
    happen, and now and then the parent passes another call, but only while
    no message is being typed.  The transcript array of the new call is the
    one of the old call or another one; one array holds the same messages
    whichever call object refers to it. *)
Inductive session : CallRecord -> World -> Prop :=
| session_mount c t0 w :
    mount c t0 = Ok w ->
    session c w
| session_step c w e w' :
    session c w ->
    step w = Fired e w' ->
    session c w'
| session_rebind c c' w w' :
    session c w ->
    isTyping (hooks w) = false ->
    (transcript_ref c = transcript_ref c' -> transcript c = transcript c') ->
    rebind c' w = Ok w' ->
    session c' w'.

(** The two ways a call gets bound outside typing, with the clock of the
    binding and what the binding returns: the mount, and the re-render of a
    session in which no message is being typed. *)
Inductive binding (c : CallRecord) : Z -> Result World -> Prop :=
| binding_mount t0 :
    binding c t0 (mount c t0)
| binding_rebind c0 w :
    session c0 w ->
    isTyping (hooks w) = false ->
    (transcript_ref c0 = transcript_ref c -> transcript c0 = transcript c) ->
    binding c (now w) (rebind c w).

(** The world right after [c] was bound at clock [t]: a call in progress
    waits in the pause before its first script message, index 0, with the
    transcript without its last message displayed; a call that is not in
    progress is idle. *)
Inductive bound (c : CallRecord) (t : Z) : World -> Prop :=
| bound_live m0 k r :
    status c = in_progress ->
    nth_error (allMessages c) 0 = Some m0 ->
    bound c t (pausing c 0 m0 t k (slice (transcript c) 0 (Some (-1))) r)
| bound_idle i k r :
    status c <> in_progress ->
    bound c t (idle c i t k r).

(** ** Expected traces

    The time one message takes from the start of its pause to its commit,
    and the events, committed messages, number of timer events and time of
    a script played from clock [t]. *)

Definition play_time (m : CallMessage) : Z :=
  pauseBeforeTyping m
  + typingSpeed m * (Z.of_nat (length (content m)) + 1).

Definition typed_events (m : CallMessage) (from n : nat) : list Event :=
  map (fun j => Typed m (firstn j (content m))) (seq from n).

Definition message_events (m : CallMessage) (t : Z) : list Event :=
  TypingStarted m :: typed_events m 1 (length (content m))
  ++ [Committed (newMessage m (t + play_time m))].

Fixpoint script_events (ms : list CallMessage) (t : Z) : list Event :=
  match ms with
  | [] => []
  | m :: r => message_events m t ++ script_events r (t + play_time m)
  end.

Fixpoint committed (ms : list CallMessage) (t : Z) : list CallMessage :=
  match ms with
  | [] => []
  | m :: r => newMessage m (t + play_time m) :: committed r (t + play_time m)
  end.

Fixpoint script_steps (ms : list CallMessage) : nat :=
  match ms with
  | [] => 0
  | m :: r => length (content m) + 2 + script_steps r
  end.

Fixpoint script_time (ms : list CallMessage) : Z :=
  match ms with
  | [] => 0
  | m :: r => play_time m + script_time r
  end.

(** One cycle of the loop: the whole script, then the cooldown. *)
Definition cycle_steps (c : CallRecord) : nat :=
  script_steps (allMessages c) + 1.

Definition cycle_time (c : CallRecord) : Z :=
  script_time (allMessages c) + 3000.

Definition is_typeTimer (u : Timer) : bool :=
  match callback u with
  | typeTimer _ _ => true
  | _ => false
  end.

(** The messages committed by a run. *)
Definition commits (es : list Event) : list CallMessage :=
  flat_map (fun e => match e with
                     | Committed m => [m]
                     | _ => []
                     end) es.

End Engine.

(** The component. *)
Definition CallDetailModal (c : CallRecord) (t0 : Z) : Result World :=
  mount simulatedContinuation c t0.

(** ** Scenarios *)

(** The scenario of the specification: seed "A" of the assistant and the
    continuation Q1 (customer), A1 (assistant). *)
Definition msgA : CallMessage :=
  mkMessage (utf16 "a") ai (utf16 "A") (utf16 "2024-05-01T10:00:00.000Z").
Definition msgQ1 : CallMessage :=
  mkMessage (utf16 "q1") customer (utf16 "Q1") [].
Definition msgA1 : CallMessage :=
  mkMessage (utf16 "a1") ai (utf16 "A1") [].
Definition scenario_call : CallRecord := mkCall in_progress 1 [msgA].

(** A call in progress whose transcript so far is a greeting. *)
Definition msgHello : CallMessage :=
  mkMessage (utf16 "m1") ai (utf16 "Hello") (utf16 "2024-05-01T10:00:00.000Z").
Definition greeting_call : CallRecord := mkCall in_progress 2 [msgHello].

(** A completed call with five messages. *)
Definition history : list CallMessage := [
  mkMessage (utf16 "h1") ai (utf16 "Welcome") (utf16 "2024-05-01T09:00:00.000Z");
  mkMessage (utf16 "h2") customer (utf16 "One soup") (utf16 "2024-05-01T09:00:05.000Z");
  mkMessage (utf16 "h3") ai (utf16 "Anything else?") (utf16 "2024-05-01T09:00:09.000Z");
  mkMessage (utf16 "h4") customer (utf16 "No") (utf16 "2024-05-01T09:00:12.000Z");
  mkMessage (utf16 "h5") ai (utf16 "Bye") (utf16 "2024-05-01T09:00:15.000Z")
].
Definition completed_call : CallRecord := mkCall completed 3 history.

(** A call in progress with three messages so far. *)
Definition order_call : CallRecord := mkCall in_progress 6 (firstn 3 history).

(** 2024-05-01T10:00:00.000Z *)
Definition t_bind : Z := 1714557600000.

(** Message [i] of the continuation, counted from 0. *)
Definition sim (i : nat) : CallMessage := nth i simulatedContinuation msgA.

(** Calls without any transcript. *)
Definition empty_live_call : CallRecord := mkCall in_progress 4 [].
Definition empty_missed_call : CallRecord := mkCall missed 5 [].

(** The greeting call right after its mount at [t_bind], and seven timer
    events later: the greeting is committed and the pause before the first
    message of the continuation runs. *)
Definition greeting_bound : World :=
  pausing greeting_call 0 msgHello t_bind 1 [] ai.
Definition greeting_said : World :=
  pausing greeting_call 1 (sim 0) (t_bind + 980) 3
    [newMessage msgHello (t_bind + 980)] ai.

(** ** What a live playback displays

    Two messages that say the same thing: role and content agree (a
    committed message has an id and a timestamp of its own). *)
Definition same_turn (a b : CallMessage) : Prop :=
  role a = role b /\ content a = content b.

Section Displayed.

Variable continuation : list CallMessage.

(** The list displayed while message [i] of the script is next: what was
    displayed when the call was bound, then the first [i] messages of the
    script as they were committed. *)
Definition in_sync (c : CallRecord) (i : nat) (D : list CallMessage) : Prop :=
  exists shown,
    D = slice (transcript c) 0 (Some (-1)) ++ shown
    /\ Forall2 same_turn shown (firstn i (allMessages continuation c)).

Inductive synced (c : CallRecord) : World -> Prop :=
| synced_pausing i m t k D r :
    nth_error (allMessages continuation c) i = Some m ->
    in_sync c i D ->
    synced c (pausing c i m t k D r)
| synced_typing i m j t k D :
    nth_error (allMessages continuation c) i = Some m ->
    (j <= length (content m))%nat ->
    in_sync c i D ->
    synced c (typing c i m j t k D)
| synced_cooling m0 t k D r :
    nth_error (allMessages continuation c) 0 = Some m0 ->
    in_sync c (length (allMessages continuation c)) D ->
    synced c (cooling continuation c t k D r).

(** What a session looks like between two timer events: a call in progress
    is played in sync with its script, a call that is not in progress is
    shown and nothing is pending. *)
Inductive settled (c : CallRecord) : World -> Prop :=
| settled_live w :
    status c = in_progress ->
    synced c w ->
    settled c w
| settled_idle i t k r :
    status c <> in_progress ->
    settled c (idle c i t k r).

End Displayed.

(** ** The other helpers of the views

    Character classes of the regular expressions the forms use; without the
    [u] flag a class is matched against single code units. *)
Definition is_lower (u : N) : bool := (97 <=? u)%N && (u <=? 122)%N.
Definition is_upper (u : N) : bool := (65 <=? u)%N && (u <=? 90)%N.
Definition is_digit (u : N) : bool := (48 <=? u)%N && (u <=? 57)%N.

Fixpoint jsstring_eqb (a b : jsstring) : bool :=
  match a, b with
  | [], [] => true
  | x :: a', y :: b' => (x =? y)%N && jsstring_eqb a' b'
  | _, _ => false
  end.

(** [String.prototype.padStart]: the filler is [padString] repeated and cut
    to the missing length. *)
Definition padStart (s : jsstring) (targetLength : nat) (padString : jsstring)
  : jsstring :=
  if (targetLength <=? length s)%nat then s
  else match padString with
       | [] => s
       | _ =>
         let fillLen := (targetLength - length s)%nat in
         firstn fillLen (concat (repeat padString fillLen)) ++ s
       end.

(** [value.replace(/\D/g, '').slice(0, limit)] *)
Definition digitsOnly (value : jsstring) (limit : Z) : jsstring :=
  slice (filter is_digit value) 0 (Some limit).

(** [array[i] = v] on a copy of the array.  Past the end JavaScript leaves
    holes; a hole reads as [undefined], which [join] and the falsy test of
    the form treat as the empty string, so a hole is written as []. *)
Fixpoint array_set (l : list jsstring) (i : nat) (v : jsstring)
  : list jsstring :=
  match l, i with
  | [], O => [v]
  | [], S i' => [] :: array_set [] i' v
  | _ :: r, O => v :: r
  | x :: r, S i' => x :: array_set r i' v
  end.

(** *** [getPasswordStrength] (ForgotPassword and utils/password) *)
Module Password.

Inductive PasswordStrength := weak | medium | strong.

Definition getPasswordStrength (password : jsstring) : PasswordStrength :=
  if (length password <? 8)%nat then weak
  else
    let score := 0%nat in
    let score := if existsb is_lower password then S score else score in
    let score := if existsb is_upper password then S score else score in
    let score := if existsb is_digit password then S score else score in
    let score :=
      if existsb (fun u => negb (is_lower u || is_upper u || is_digit u))
           password
      then S score else score in
    let score := if (12 <=? length password)%nat then S score else score in
    if (4 <=? score)%nat then strong
    else if (2 <=? score)%nat then medium
    else weak.

(** The order of the strength bar: one, two or three segments. *)
Definition strengthSegments (s : PasswordStrength) : nat :=
  match s with
  | weak => 1
  | medium => 2
  | strong => 3
  end.

End Password.

(** *** The form handlers of ForgotPassword and Login *)
Module ForgotPassword.

Definition handlePhoneChange (value : jsstring) : jsstring :=
  digitsOnly value 10.

(** [handleOtpChange]: the new [otp] and the slot whose focus is asked
    for. *)
Definition handleOtpChange (otp : list jsstring) (index : nat)
    (value : jsstring) : list jsstring * option nat :=
  if (1 <? length value)%nat then
    let digits := map (fun d => [d]) (digitsOnly value 6) in
    let newOtp :=
      fold_left (fun acc di =>
                   if (index + snd di <? 6)%nat
                   then array_set acc (index + snd di) (fst di)
                   else acc)
        (combine digits (seq 0 (length digits))) otp in
    (newOtp, Some (Nat.min (index + length digits) 5))
  else
    let digit := filter is_digit value in
    (array_set otp index digit,
     match digit with
     | [] => None
     | _ => if (index <? 5)%nat then Some (S index) else None
     end).

(** What the six slots of the form hold: nothing or one decimal digit. *)
Definition slot_ok (s : jsstring) : Prop :=
  s = [] \/ exists d, is_digit d = true /\ s = [d].

Definition otp_ok (otp : list jsstring) : Prop :=
  length otp = 6%nat /\ Forall slot_ok otp.

(** [otp.join('')] *)
Definition code (otp : list jsstring) : jsstring := concat otp.

(** [handleStep2Next]: true when the form moves on to step 3, false when
    it reports the invalid code. *)
Definition handleStep2Next (otp : list jsstring) : bool :=
  (length (code otp) =? 6)%nat.

End ForgotPassword.

Module Login.

Definition handlePhoneChange (value : jsstring) : jsstring :=
  digitsOnly value 10.

Definition handleCodeChange (value : jsstring) : jsstring :=
  digitsOnly value 6.

End Login.

(** *** The resend countdown of Login and ForgotPassword

    The state [countdown] with its effect, dependencies [[countdown]]: while
    the value is positive a timeout of 1000 ms is pending that lowers it by
    one; the cleanup clears that timeout. *)
Module Countdown.

Record State := mkState {
  now : Z;
  countdown : Z;
  timer : option Z
}.

(** The effect body at the current render. *)
Definition effect (s : State) : State :=
  if countdown s <=? 0 then mkState (now s) (countdown s) None
  else mkState (now s) (countdown s) (Some (now s + 1000)).

(** A state update followed by the render: when the value changed the
    cleanup clears the pending timeout and the effect runs again. *)
Definition setCountdown (f : Z -> Z) (s : State) : State :=
  let v := f (countdown s) in
  if v =? countdown s then s
  else effect (mkState (now s) v None).

Definition mount (t0 : Z) : State := effect (mkState t0 0 None).

(** The pending timeout fires: [setCountdown((c) => c - 1)]. *)
Definition tick (s : State) : State :=
  match timer s with
  | None => s
  | Some due =>
    setCountdown (fun c => c - 1)
      (mkState (Z.max (now s) due) (countdown s) None)
  end.

Fixpoint ticks (n : nat) (s : State) : State :=
  match n with
  | O => s
  | S n' => ticks n' (tick s)
  end.

(** [handleResendCode] and the button that calls it ask for a new code
    only when this holds. *)
Definition canResend (s : State) : bool := negb (0 <? countdown s).

End Countdown.

(** [Number.MAX_SAFE_INTEGER] *)
Definition MAX_SAFE_INTEGER : Z := 2 ^ 53 - 1.

(** *** The formatting helpers of CallDetailModal *)
Module Modal.

Section WithLocale.

(** [new Date(timestamp).toLocaleTimeString([], ...)], which depends on the
    locale and the time zone of the browser. *)
Variable toLocaleTimeString : jsstring -> jsstring.

Definition formatTime (timestamp : jsstring) : jsstring :=
  match timestamp with
  | [] => utf16 "--:--"
  | _ => toLocaleTimeString timestamp
  end.

End WithLocale.

(** [seconds] is an integral number of seconds.  The source computes on
    doubles.  For a whole number up to [MAX_SAFE_INTEGER] in absolute value
    the quotient by 60 is rounded by less than 1/60, so that [Math.floor]
    of it is the integer quotient, [%] is exact and both print in decimal:
    there the integer arithmetic below is what the code computes.  Beyond
    that value it is not. *)
Definition formatDuration (seconds : Z) : jsstring :=
  let mins := seconds / 60 in
  let secs := Z.rem seconds 60 in
  Number_toString mins ++ utf16 ":"
  ++ padStart (Number_toString secs) 2 (utf16 "0").

End Modal.

(** *** The list of calls: CallRecords *)
Module CallRecords.

Definition pageSize : Z := 10.

(** The same arithmetic as in the call detail, on the same range. *)
Definition formatDuration (seconds : Z) : jsstring :=
  if seconds =? 0 then utf16 "-"
  else
    let mins := seconds / 60 in
    let secs := Z.rem seconds 60 in
    Number_toString mins ++ utf16 ":"
    ++ padStart (Number_toString secs) 2 (utf16 "0").

Definition paginatedCalls {A : Type} (filteredCalls : list A) (currentPage : Z)
  : list A :=
  let start := (currentPage - 1) * pageSize in
  slice filteredCalls start (Some (start + pageSize)).

(** [Math.ceil(filteredCalls.length / pageSize)] *)
Definition totalPages {A : Type} (filteredCalls : list A) : Z :=
  - ((- Z.of_nat (length filteredCalls)) / pageSize).

(** The two page buttons. *)
Definition previousPage (p : Z) : Z := Z.max 1 (p - 1).
Definition nextPage (total p : Z) : Z := Z.min total (p + 1).

(** A [Set] of call ids: its elements in insertion order, without
    repetition. *)
Definition has (s : list jsstring) (x : jsstring) : bool :=
  existsb (jsstring_eqb x) s.

Definition add (s : list jsstring) (x : jsstring) : list jsstring :=
  if has s x then s else s ++ [x].

Definition delete (s : list jsstring) (x : jsstring) : list jsstring :=
  filter (fun y => negb (jsstring_eqb x y)) s.

(** [new Set(iterable)] *)
Definition newSet (l : list jsstring) : list jsstring := fold_left add l [].

Definition toggleCallWindow (prev : list jsstring) (callId : jsstring)
  : list jsstring :=
  let s := newSet prev in
  if has s callId then delete s callId else add s callId.

(** The checkbox of the table header over the ids of the page,
    [paginatedCalls.map(c => c.id)]: its [onChange] and its [checked]. *)
Definition selectPage (pageIds : list jsstring) (checked : bool)
  : list jsstring :=
  if checked then newSet pageIds else newSet [].

Definition pageChecked (pageIds activeCallWindows : list jsstring) : bool :=
  (0 <? length pageIds)%nat && forallb (has activeCallWindows) pageIds.

End CallRecords.

(** * Properties *)

(** ** [slice] at the three index patterns the component uses *)

Lemma slice_prefix {A : Type} (s : list A) (j : nat) :
  (j < length s)%nat ->
  slice s 0 (Some (Z.of_nat j + 1)) = firstn (S j) s.
Proof.
  intros Hj. unfold slice, relative_index.
  replace (Z.of_nat j + 1) with (Z.of_nat (S j)) by lia.
  destruct (Z.of_nat (S j) <? 0) eqn:E; [apply Z.ltb_lt in E; lia|].
  rewrite Nat2Z.id. change (0 <? 0) with false. cbn [Z.to_nat].
  rewrite Nat.min_0_l, Nat.min_l by lia.
  now rewrite Nat.sub_0_r.
Qed.

Lemma slice_all_but_last {A : Type} (l : list A) :
  slice l 0 (Some (-1)) = removelast l.
Proof.
  unfold slice, relative_index.
  change (0 <? 0) with false. change (-1 <? 0) with true. cbn [Z.to_nat].
  rewrite Nat.min_0_l, Nat.sub_0_r. cbn [skipn].
  rewrite removelast_firstn_len. f_equal. lia.
Qed.

Lemma slice_last {A : Type} (l : list A) (x : A) :
  slice (l ++ [x]) (-1) None = [x].
Proof.
  unfold slice, relative_index. change (-1 <? 0) with true.
  rewrite length_app. cbn [length].
  replace (Z.to_nat (Z.max (Z.of_nat (length l + 1) + -1) 0)) with (length l) by lia.
  rewrite skipn_app, skipn_all, Nat.sub_diag. cbn [skipn app].
  replace (length l + 1 - length l)%nat with 1%nat by lia. reflexivity.
Qed.

Lemma slice_last_nil {A : Type} : slice (@nil A) (-1) None = [].
Proof. reflexivity. Qed.

(** ** Ids of committed messages *)

Lemma uint_units_inj d1 d2 : uint_units d1 = uint_units d2 -> d1 = d2.
Proof.
  revert d2. induction d1; destruct d2; cbn; intros H;
    try discriminate; try reflexivity; injection H as H; f_equal; auto.
Qed.

Lemma uint_units_not_minus d l : uint_units d <> 45%N :: l.
Proof. destruct d; cbn; discriminate. Qed.

Lemma Number_toString_inj a b : Number_toString a = Number_toString b -> a = b.
Proof.
  unfold Number_toString. intros H. apply DecimalZ.to_int_inj.
  destruct (Z.to_int a) as [d|d], (Z.to_int b) as [d'|d'].
  - f_equal. now apply uint_units_inj.
  - now apply uint_units_not_minus in H.
  - symmetry in H. now apply uint_units_not_minus in H.
  - injection H as H. f_equal. now apply uint_units_inj.
Qed.

(** ** Steps of a live playback *)
Section Playback.

Variable continuation : list CallMessage.

Local Abbreviation allMessages := (allMessages continuation).
Local Abbreviation step := (step continuation).
Local Abbreviation run := (run continuation).
Local Abbreviation mount := (mount continuation).
Local Abbreviation rebind := (rebind continuation).
Local Abbreviation cooling := (cooling continuation).
Local Abbreviation playing := (playing continuation).
Local Abbreviation cycle_steps := (cycle_steps continuation).
Local Abbreviation cycle_time := (cycle_time continuation).

Lemma typingSpeed_pos m : 0 < typingSpeed m.
Proof. unfold typingSpeed. destruct (Role_eqb _ _); lia. Qed.

Lemma pauseBeforeTyping_pos m : 0 < pauseBeforeTyping m.
Proof. unfold pauseBeforeTyping. destruct (Role_eqb _ _); lia. Qed.

Lemma max_later t d : 0 < d -> Z.max t (t + d) = t + d.
Proof. lia. Qed.

Lemma deps_eqb_refl d : deps_eqb d d = true.
Proof.
  destruct d as [[a b] c]. unfold deps_eqb.
  now rewrite Bool.eqb_reflx, !Nat.eqb_refl.
Qed.

Local Arguments Nat.ltb : simpl never.
Local Arguments Nat.leb : simpl never.
Local Arguments Z.add : simpl never.
Local Arguments Z.max : simpl never.
Local Arguments Z.ltb : simpl never.
Local Arguments Nat.eqb : simpl nomatch.
Local Arguments Z.of_nat : simpl never.
Local Arguments slice : simpl never.
Local Arguments firstn : simpl never.
Local Arguments nth_error : simpl never.

Ltac crunch :=
  repeat (cbn;
          first [ rewrite max_later
                    by first [apply typingSpeed_pos | apply pauseBeforeTyping_pos | lia]
                | rewrite Nat.eqb_refl
                | rewrite (proj2 (Nat.eqb_neq _ _)) by lia
                | rewrite (proj2 (Nat.leb_gt _ _)) by lia
                | rewrite (proj2 (Nat.leb_le _ _)) by lia
                | progress unfold commitEffects, liveDemoEffect, deps, deps_eqb,
                    runCleanup, clearTimeout, clearInterval, clearTimer,
                    setTimeout, setInterval, setState, set_charIndex, rearm ]).

Lemma step_pausing c i m t k D r :
  step (pausing c i m t k D r)
  = Fired (TypingStarted m) (typing c i m 0 (t + pauseBeforeTyping m) k D).
Proof.
  unfold step, pausing, typing. crunch. reflexivity.
Qed.

Lemma step_typing_tick c i m j t k D :
  (j < length (content m))%nat ->
  step (typing c i m j t k D)
  = Fired (Typed m (firstn (S j) (content m)))
      (typing c i m (S j) (t + typingSpeed m) k D).
Proof.
  intros Hj. unfold step, typing. crunch.
  rewrite (proj2 (Nat.ltb_lt _ _) Hj), slice_prefix by assumption.
  crunch. reflexivity.
Qed.

Lemma step_typing_commit c i m m' t k D :
  nth_error (allMessages c) (S i) = Some m' ->
  step (typing c i m (length (content m)) t k D)
  = Fired (Committed (newMessage m (t + typingSpeed m)))
      (pausing c (S i) m' (t + typingSpeed m) (S (S k))
         (D ++ [newMessage m (t + typingSpeed m)]) (role m)).
Proof.
  intros Hm'.
  assert (S i < length (allMessages c))%nat
    by (apply nth_error_Some; congruence).
  unfold step, typing, pausing. crunch.
  rewrite Nat.ltb_irrefl. crunch. rewrite Hm'. reflexivity.
Qed.

Lemma step_typing_last c i m t k D :
  S i = length (allMessages c) ->
  step (typing c i m (length (content m)) t k D)
  = Fired (Committed (newMessage m (t + typingSpeed m)))
      (cooling c (t + typingSpeed m) (S (S k))
         (D ++ [newMessage m (t + typingSpeed m)]) (role m)).
Proof.
  intros Hlast. unfold step, typing, cooling. crunch.
  rewrite Nat.ltb_irrefl. crunch. rewrite <- Hlast. reflexivity.
Qed.

Lemma step_cooling c m0 t k D r :
  nth_error (allMessages c) 0 = Some m0 ->
  step (cooling c t k D r)
  = Fired LoopReset
      (pausing c 0 m0 (t + 3000) (S k) (slice (transcript c) 0 (Some (-1))) r).
Proof.
  intros Hm0.
  assert (0 < length (allMessages c))%nat
    by (apply nth_error_Some; congruence).
  unfold step, cooling, pausing. crunch. rewrite Hm0. reflexivity.
Qed.

Lemma mount_live c m0 t0 :
  status c = in_progress ->
  nth_error (allMessages c) 0 = Some m0 ->
  mount c t0
  = Ok (pausing c 0 m0 t0 1 (slice (transcript c) 0 (Some (-1))) ai).
Proof.
  intros Hs Hm0.
  assert (0 < length (allMessages c))%nat
    by (apply nth_error_Some; congruence).
  unfold mount, pausing, initEffect. rewrite Hs. crunch.
  rewrite Hm0. reflexivity.
Qed.

Lemma mount_static c t0 :
  status c <> in_progress ->
  mount c t0
  = Ok (mkWorld t0 1 [] true c
          (mkHooks (transcript c) [] false ai 0 false)
          (Some (false, 0%nat, transcript_ref c)) None).
Proof.
  intros Hs. unfold mount, initEffect.
  destruct (status c); try congruence; crunch; reflexivity.
Qed.

(** ** Runs of a live playback *)

Lemma run_S n w :
  run (S n) w
  = match step w with
    | Quiescent => Ok ([], w)
    | Threw => TypeError
    | Fired e w1 => r <- run n w1 ;; Ok (e :: fst r, snd r)
    end.
Proof. reflexivity. Qed.

Lemma run_step w e w1 n es w2 :
  step w = Fired e w1 ->
  run n w1 = Ok (es, w2) ->
  run (S n) w = Ok (e :: es, w2).
Proof. intros Hs Hr. now rewrite run_S, Hs, Hr. Qed.

Lemma run_quiescent w n : step w = Quiescent -> run n w = Ok ([], w).
Proof. intros Hs. destruct n; [reflexivity|]. now rewrite run_S, Hs. Qed.

Lemma run_app n n' w es w1 es' w2 :
  run n w = Ok (es, w1) ->
  run n' w1 = Ok (es', w2) ->
  run (n + n') w = Ok (es ++ es', w2).
Proof.
  revert w es. induction n as [|n IH]; intros w es H1 H2.
  - cbn in H1. injection H1 as <- <-. exact H2.
  - rewrite Nat.add_succ_l, run_S. rewrite run_S in H1.
    destruct (step w) as [|e w'|] eqn:Hs.
    + injection H1 as <- <-.
      rewrite (run_quiescent _ n' Hs) in H2. now injection H2 as <- <-.
    + destruct (run n w') as [[es0 w0]|] eqn:Hr; cbn in H1; [|discriminate].
      injection H1 as <- <-. now rewrite (IH _ _ Hr H2).
    + discriminate.
Qed.

Lemma run_typing c i m k D n :
  forall j t, (j + n <= length (content m))%nat ->
  run n (typing c i m j t k D)
  = Ok (typed_events m (S j) n,
        typing c i m (j + n) (t + typingSpeed m * Z.of_nat n) k D).
Proof.
  induction n as [|n IH]; intros j t Hj.
  - cbn. now rewrite Nat.add_0_r, Z.mul_0_r, Z.add_0_r.
  - eapply run_step; [apply step_typing_tick; lia|].
    rewrite IH by lia. unfold typed_events. cbn [seq map].
    do 3 f_equal; [lia | lia].
Qed.

Lemma run_until_typed c i m t k D r :
  run (S (length (content m))) (pausing c i m t k D r)
  = Ok (TypingStarted m :: typed_events m 1 (length (content m)),
        typing c i m (length (content m))
          (t + play_time m - typingSpeed m) k D).
Proof.
  eapply run_step; [apply step_pausing|].
  rewrite run_typing by lia. cbn [Nat.add]. do 3 f_equal.
  unfold play_time. lia.
Qed.

Lemma run_message_next c i m m' t k D r :
  nth_error (allMessages c) (S i) = Some m' ->
  run (length (content m) + 2) (pausing c i m t k D r)
  = Ok (message_events m t,
        pausing c (S i) m' (t + play_time m) (S (S k))
          (D ++ [newMessage m (t + play_time m)]) (role m)).
Proof.
  intros Hm'.
  replace (length (content m) + 2)%nat
    with (S (length (content m)) + 1)%nat by lia.
  pose proof (run_until_typed c i m t k D r) as Htyped.
  unfold message_events.
  remember (t + play_time m - typingSpeed m) as u eqn:Hu.
  replace (t + play_time m) with (u + typingSpeed m) by lia.
  rewrite app_comm_cons.
  eapply run_app; [exact Htyped|].
  eapply run_step; [apply step_typing_commit; exact Hm'|reflexivity].
Qed.

Lemma run_message_last c i m t k D r :
  S i = length (allMessages c) ->
  run (length (content m) + 2) (pausing c i m t k D r)
  = Ok (message_events m t,
        cooling c (t + play_time m) (S (S k))
          (D ++ [newMessage m (t + play_time m)]) (role m)).
Proof.
  intros Hlast.
  replace (length (content m) + 2)%nat
    with (S (length (content m)) + 1)%nat by lia.
  pose proof (run_until_typed c i m t k D r) as Htyped.
  unfold message_events.
  remember (t + play_time m - typingSpeed m) as u eqn:Hu.
  replace (t + play_time m) with (u + typingSpeed m) by lia.
  rewrite app_comm_cons.
  eapply run_app; [exact Htyped|].
  eapply run_step; [apply step_typing_last; exact Hlast|reflexivity].
Qed.

Lemma last_cons {A : Type} (l : list A) (a d : A) :
  last (a :: l) d = last l a.
Proof.
  revert a d. induction l as [|b l IH]; intros a d; [reflexivity|].
  change (last (a :: b :: l) d) with (last (b :: l) d).
  now rewrite (IH b d), (IH b a).
Qed.

(** Playing the rest of the script, from the pause before message [i] to
    the cooldown. *)
Lemma run_script c ms :
  forall i m t k D r,
  skipn i (allMessages c) = m :: ms ->
  run (script_steps (m :: ms)) (pausing c i m t k D r)
  = Ok (script_events (m :: ms) t,
        cooling c (t + script_time (m :: ms)) (k + 2 * length (m :: ms))
          (D ++ committed (m :: ms) t) (role (last ms m))).
Proof.
  induction ms as [|m' ms IH]; intros i m t k D r Hskip.
  - assert (S i = length (allMessages c)) as Hlast.
    { apply (f_equal (@length _)) in Hskip. rewrite length_skipn in Hskip.
      cbn in Hskip. lia. }
    cbn [script_steps script_events script_time committed last length].
    rewrite Nat.add_0_r, app_nil_r, Z.add_0_r.
    rewrite (run_message_last _ _ _ _ _ _ _ Hlast).
    do 3 f_equal. lia.
  - assert (skipn (S i) (allMessages c) = m' :: ms) as Hskip'.
    { change (S i) with (1 + i)%nat. rewrite <- skipn_skipn, Hskip.
      reflexivity. }
    assert (nth_error (allMessages c) (S i) = Some m') as Hm'.
    { rewrite <- (firstn_skipn (S i) (allMessages c)) at 1.
      rewrite nth_error_app2 by (rewrite length_firstn; lia).
      rewrite Hskip'.
      assert (S i <= length (allMessages c))%nat.
      { apply (f_equal (@length _)) in Hskip'. rewrite length_skipn in Hskip'.
        cbn in Hskip'. lia. }
      rewrite length_firstn, Nat.min_l, Nat.sub_diag by lia. reflexivity. }
    change (script_steps (m :: m' :: ms))
      with ((length (content m) + 2) + script_steps (m' :: ms))%nat.
    eapply run_app; [apply run_message_next; exact Hm'|].
    rewrite (IH _ _ _ _ _ _ Hskip').
    cbn [script_events script_time committed length].
    rewrite <- app_assoc, last_cons.
    do 3 f_equal; lia.
Qed.

(** One full cycle: every message of the script, then the cooldown. *)
Lemma run_cycle c m0 t k D r :
  nth_error (allMessages c) 0 = Some m0 ->
  run (script_steps (allMessages c) + 1) (pausing c 0 m0 t k D r)
  = Ok (script_events (allMessages c) t ++ [LoopReset],
        pausing c 0 m0 (t + script_time (allMessages c) + 3000)
          (S (k + 2 * length (allMessages c)))
          (slice (transcript c) 0 (Some (-1)))
          (role (last (allMessages c) m0))).
Proof.
  intros Hm0.
  destruct (allMessages c) as [|m ms] eqn:Hall; [discriminate|].
  injection Hm0 as ->.
  eapply run_app.
  - apply run_script. rewrite Hall. reflexivity.
  - eapply run_step; [|reflexivity].
    rewrite <- Hall.
    replace (last ms m0) with (last (allMessages c) m0)
      by (rewrite Hall; apply last_cons).
    apply step_cooling. now rewrite Hall.
Qed.

Lemma playing_step c w :
  playing c w ->
  exists e w',
    step w = Fired e w' /\ playing c w'
    /\ displayedMessages (hooks w')
       = match e with
         | Committed m => displayedMessages (hooks w) ++ [m]
         | LoopReset => slice (transcript c) 0 (Some (-1))
         | _ => displayedMessages (hooks w)
         end.
Proof.
  intros [i m t k D r Hm | i m j t k D Hm Hj | m0 t k D r Hm0].
  - eexists _, _. split; [apply step_pausing|].
    split; [apply playing_typing; [exact Hm|lia]|reflexivity].
  - destruct (Nat.eq_dec j (length (content m))) as [->|Hne].
    + assert (i < length (allMessages c))%nat
        by (apply nth_error_Some; congruence).
      destruct (nth_error (allMessages c) (S i)) as [m'|] eqn:Hm'.
      * eexists _, _. split; [apply step_typing_commit; exact Hm'|].
        split; [apply playing_pausing; exact Hm'|reflexivity].
      * apply nth_error_None in Hm'.
        destruct (nth_error (allMessages c) 0) as [m0|] eqn:Hm0;
          [|apply nth_error_None in Hm0; lia].
        eexists _, _. split; [apply step_typing_last; lia|].
        split; [apply (playing_cooling _ _ m0); exact Hm0|reflexivity].
    + eexists _, _. split; [apply step_typing_tick; lia|].
      split; [apply playing_typing; [exact Hm|lia]|reflexivity].
  - eexists _, _. split; [apply step_cooling; exact Hm0|].
    split; [apply playing_pausing; exact Hm0|reflexivity].
Qed.

Lemma playing_run c n :
  forall w, playing c w ->
  exists es w', run n w = Ok (es, w') /\ length es = n /\ playing c w'.
Proof.
  induction n as [|n IH]; intros w Hw.
  - exists [], w. now repeat split.
  - destruct (playing_step _ _ Hw) as (e & w1 & Hs & Hw1 & _).
    destruct (IH _ Hw1) as (es & w' & Hr & Hlen & Hw').
    exists (e :: es), w'. repeat split; [|cbn; lia|assumption].
    now apply (run_step _ _ _ _ _ _ Hs).
Qed.

Lemma allMessages_head c :
  allMessages c <> [] -> exists m0, nth_error (allMessages c) 0 = Some m0.
Proof. destruct (allMessages c) as [|m0 l]; [congruence|]. now exists m0. Qed.

Lemma allMessages_seed c hist seed :
  transcript c = hist ++ [seed] -> allMessages c = seed :: continuation.
Proof.
  intros Htr. unfold allMessages. now rewrite Htr, slice_last.
Qed.

(** The live-demo effect checks the index before it reads the message. *)
Lemma liveDemoEffect_ok w :
  exists w', liveDemoEffect continuation w = Ok w'
    /\ hooks w' = hooks w /\ now w' = now w /\ mounted w' = mounted w
    /\ call w' = call w.
Proof.
  unfold liveDemoEffect. destruct w as [t n ts b c h d k]. cbn.
  destruct (negb (isLiveDemo h)); [eexists; repeat split|].
  destruct (Nat.leb_spec (length (allMessages c)) (messageIndex h))
    as [Hle|Hlt]; [eexists; repeat split|].
  destruct (nth_error _ _) eqn:E; [eexists; repeat split|].
  apply nth_error_None in E. lia.
Qed.

Lemma commitEffects_ok w :
  exists w', commitEffects continuation w = Ok w'
    /\ hooks w' = hooks w /\ now w' = now w /\ mounted w' = mounted w
    /\ call w' = call w.
Proof.
  unfold commitEffects.
  destruct (match live_deps w with Some d => _ | None => _ end);
    [eexists; repeat split|].
  destruct (liveDemoEffect_ok
              (with_live_deps (Some (deps w)) (runCleanup w)))
    as (w' & -> & Hh & Hn & Hm & Hc).
  exists w'. rewrite Hh, Hn, Hm, Hc.
  unfold runCleanup, clearTimeout, clearTimer.
  destruct w as [t n ts b c h d [k|]]; repeat split.
Qed.

(** The last tick of a typing interval, whatever the index. *)
Lemma step_typing_done c i m t k D :
  exists w',
    step (typing c i m (length (content m)) t k D)
    = Fired (Committed (newMessage m (t + typingSpeed m))) w'
    /\ hooks w'
       = mkHooks (D ++ [newMessage m (t + typingSpeed m)]) [] false (role m)
           (S i) true
    /\ now w' = t + typingSpeed m
    /\ existsb is_typeTimer (timers w') = false.
Proof.
  unfold step, typing. crunch. rewrite Nat.ltb_irrefl. crunch.
  destruct (Nat.leb_spec (length (allMessages c)) (S i)) as [Hle|Hlt].
  - eexists. repeat split.
  - destruct (nth_error (allMessages c) (S i)) eqn:E.
    + eexists. repeat split.
    + apply nth_error_None in E. lia.
Qed.

Lemma firstn_snoc {A : Type} (l : list A) (j : nat) :
  (j < length l)%nat -> exists x, firstn (S j) l = firstn j l ++ [x].
Proof.
  revert j. induction l as [|a l IH]; intros j Hj; [cbn in Hj; lia|].
  destruct j as [|j]; [now exists a|].
  destruct (IH j) as [x Hx]; [cbn in Hj; lia|].
  exists x. change (firstn (S (S j)) (a :: l)) with (a :: firstn (S j) l).
  now rewrite Hx.
Qed.

Lemma commits_app es1 es2 : commits (es1 ++ es2) = commits es1 ++ commits es2.
Proof. apply flat_map_app. Qed.

Lemma commits_typed m from n : commits (typed_events m from n) = [].
Proof.
  unfold typed_events. revert from.
  induction n as [|n IH]; intros from; [reflexivity|]. cbn. apply IH.
Qed.

Lemma commits_message m t :
  commits (message_events m t) = [newMessage m (t + play_time m)].
Proof.
  unfold message_events.
  change (commits (TypingStarted m :: ?l)) with (commits l).
  now rewrite commits_app, commits_typed.
Qed.

Lemma commits_script ms : forall t, commits (script_events ms t) = committed ms t.
Proof.
  induction ms as [|m ms IH]; intros t; [reflexivity|].
  cbn [script_events committed].
  now rewrite commits_app, commits_message, IH.
Qed.

Lemma length_committed ms : forall t, length (committed ms t) = length ms.
Proof.
  induction ms as [|m ms IH]; intros t; [reflexivity|].
  cbn. now rewrite IH.
Qed.

Lemma typed_not_reset m from n : ~ In LoopReset (typed_events m from n).
Proof.
  unfold typed_events. intros H. apply in_map_iff in H as (j & Hj & _).
  discriminate.
Qed.

Lemma script_not_reset ms : forall t, ~ In LoopReset (script_events ms t).
Proof.
  induction ms as [|m ms IH]; intros t H; [exact H|].
  cbn [script_events] in H. apply in_app_or in H as [H|H]; [|now apply IH in H].
  unfold message_events in H. destruct H as [H|H]; [discriminate|].
  apply in_app_or in H as [H|[H|[]]]; [|discriminate].
  now apply typed_not_reset in H.
Qed.

Lemma run_cycles c m0 n :
  nth_error (allMessages c) 0 = Some m0 ->
  forall t k r, exists es k' r',
    run (n * cycle_steps c)
      (pausing c 0 m0 t k (slice (transcript c) 0 (Some (-1))) r)
    = Ok (es,
          pausing c 0 m0 (t + Z.of_nat n * cycle_time c) k'
            (slice (transcript c) 0 (Some (-1))) r').
Proof.
  intros Hm0. induction n as [|n IH]; intros t k r.
  - exists [], k, r. cbn. now rewrite Z.add_0_r.
  - destruct (IH (t + cycle_time c) (S (k + 2 * length (allMessages c)))
                (role (last (allMessages c) m0))) as (es & k' & r' & Hr).
    eexists _, k', r'. cbn [Nat.mul].
    eapply run_app; [apply run_cycle; exact Hm0|].
    unfold cycle_time in *. rewrite Z.add_assoc in Hr. rewrite Hr.
    do 3 f_equal. lia.
Qed.

(** One message, from its pause to its commit. *)
Lemma run_message c i m t k D r :
  nth_error (allMessages c) i = Some m ->
  exists w',
    run (length (content m) + 2) (pausing c i m t k D r)
    = Ok (message_events m t, w')
    /\ playing c w'
    /\ hooks w'
       = mkHooks (D ++ [newMessage m (t + play_time m)]) [] false (role m)
           (S i) true.
Proof.
  intros Hm.
  assert (i < length (allMessages c))%nat
    by (apply nth_error_Some; congruence).
  destruct (nth_error (allMessages c) (S i)) as [m'|] eqn:Hm'.
  - eexists. split; [apply run_message_next; exact Hm'|].
    split; [apply playing_pausing; exact Hm'|reflexivity].
  - apply nth_error_None in Hm'.
    assert (S i = length (allMessages c)) as Hlast by lia.
    destruct (nth_error (allMessages c) 0) as [m0|] eqn:Hm0;
      [|apply nth_error_None in Hm0; lia].
    eexists. split; [apply run_message_last; exact Hlast|].
    split; [apply (playing_cooling _ _ m0); exact Hm0|].
    cbn. now rewrite Hlast.
Qed.

(** The first part of a cycle: the whole script, up to the cooldown. *)
Lemma run_pass c m0 t k D r :
  nth_error (allMessages c) 0 = Some m0 ->
  exists wc,
    run (script_steps (allMessages c)) (pausing c 0 m0 t k D r)
    = Ok (script_events (allMessages c) t, wc)
    /\ hooks wc
       = mkHooks (D ++ committed (allMessages c) t) [] false
           (role (last (allMessages c) m0)) (length (allMessages c)) true
    /\ now wc = t + script_time (allMessages c)
    /\ step wc
       = Fired LoopReset
           (pausing c 0 m0 (t + cycle_time c)
              (S (k + 2 * length (allMessages c)))
              (slice (transcript c) 0 (Some (-1)))
              (role (last (allMessages c) m0))).
Proof.
  intros Hm0.
  exists (cooling c (t + script_time (allMessages c))
            (k + 2 * length (allMessages c))
            (D ++ committed (allMessages c) t)
            (role (last (allMessages c) m0))).
  split; [|split; [reflexivity|split; [reflexivity|]]].
  - assert (exists ms, allMessages c = m0 :: ms) as [ms Hall].
    { destruct (allMessages c) as [|m ms]; [discriminate|].
      injection Hm0 as ->. now exists ms. }
    assert (last (allMessages c) m0 = last ms m0) as ->
      by (rewrite Hall; apply last_cons).
    pose proof (run_script c ms 0 m0 t k D r Hall) as Hrun.
    now rewrite <- Hall in Hrun.
  - unfold cycle_time. rewrite Z.add_assoc. apply step_cooling. exact Hm0.
Qed.

Lemma length_slice_all_but_last {A : Type} (l : list A) :
  length (slice l 0 (Some (-1))) = (length l - 1)%nat.
Proof.
  rewrite slice_all_but_last, removelast_firstn_len, length_firstn. lia.
Qed.

Lemma slice_history {A : Type} (l : list A) (x : A) :
  slice (l ++ [x]) 0 (Some (-1)) = l.
Proof. rewrite slice_all_but_last. apply removelast_last. Qed.

(** No turn of the event loop, no mount and no re-render raises. *)
Lemma step_never_throws w : step w <> Threw.
Proof.
  unfold step. destruct (next_timer (timers w)) as [u|]; [|discriminate].
  destruct (fire u _) as [e w1].
  destruct (mounted w1); [|discriminate].
  destruct (commitEffects_ok w1) as (w2 & -> & _). discriminate.
Qed.

Lemma mount_never_throws c t0 : exists w, mount c t0 = Ok w.
Proof.
  unfold mount.
  destruct (commitEffects_ok (mkWorld t0 1 [] true c initialHooks None None))
    as (w1 & -> & _).
  destruct (commitEffects_ok (with_hooks (initEffect c (hooks w1)) w1))
    as (w2 & H2 & _).
  now exists w2.
Qed.

Lemma rebind_never_throws c w : exists w', rebind c w = Ok w'.
Proof.
  unfold rebind. destruct (mounted w); [|now exists w].
  destruct (commitEffects_ok (with_call c w)) as (w1 & -> & _).
  destruct (commitEffects_ok (with_hooks (initEffect c (hooks w1)) w1))
    as (w2 & H2 & _).
  now exists w2.
Qed.

(** *** What the cleanup leaves behind

    The effects clear no timer but the one their cleanup names, which is
    the pause timer or the loop timer; a typing interval is only ever
    cleared by its own last tick. *)
Lemma liveDemoEffect_keeps w w' u :
  liveDemoEffect continuation w = Ok w' ->
  In u (timers w) -> (handle u < next_handle w)%nat ->
  In u (timers w') /\ (handle u < next_handle w')%nat
  /\ live_cleanup w' <> Some (handle u).
Proof.
  unfold liveDemoEffect. destruct w as [t n ts b c h d k]. cbn.
  intros Hw' Hin Hlt.
  destruct (negb (isLiveDemo h)).
  { injection Hw' as <-. cbn. repeat split; [assumption..|discriminate]. }
  destruct (length (allMessages c) <=? messageIndex h)%nat.
  { injection Hw' as <-. cbn. repeat split;
      [apply in_or_app; now left|lia|intros [= E]; lia]. }
  destruct (nth_error _ _); [|discriminate].
  injection Hw' as <-. cbn. repeat split;
    [apply in_or_app; now left|lia|intros [= E]; lia].
Qed.

Lemma commitEffects_keeps w w' u :
  commitEffects continuation w = Ok w' ->
  In u (timers w) -> (handle u < next_handle w)%nat ->
  live_cleanup w <> Some (handle u) ->
  In u (timers w') /\ (handle u < next_handle w')%nat
  /\ live_cleanup w' <> Some (handle u).
Proof.
  unfold commitEffects. intros Hw' Hin Hlt Hk.
  destruct (match live_deps w with Some d => _ | None => _ end).
  { injection Hw' as <-. now repeat split. }
  apply liveDemoEffect_keeps with (u := u) in Hw'; [exact Hw'| |].
  - destruct w as [t n ts b c h d [k|]]; cbn in *; [|assumption].
    apply filter_In. split; [assumption|].
    apply negb_true_iff, Nat.eqb_neq. congruence.
  - destruct w as [t n ts b c h d [k|]]; cbn in *; assumption.
Qed.

Lemma rebind_keeps_interval c c' i m j t k D :
  exists w',
    rebind c' (typing c i m j t k D) = Ok w'
    /\ In (mkTimer (S k) (t + typingSpeed m) (Some (typingSpeed m))
             (typeTimer m j)) (timers w').
Proof.
  unfold rebind. cbn [mounted typing].
  set (u := mkTimer (S k) (t + typingSpeed m) (Some (typingSpeed m))
              (typeTimer m j)).
  fold (typing c i m j t k D). set (w := typing c i m j t k D).
  destruct (commitEffects_ok (with_call c' w)) as (w1 & H1 & _).
  rewrite H1. cbn [bind].
  apply commitEffects_keeps with (u := u) in H1 as (Hin & Hlt & Hk);
    [|now left|cbn; lia|cbn; intros [= E]; lia].
  destruct (commitEffects_ok (with_hooks (initEffect c' (hooks w1)) w1))
    as (w2 & H2 & _).
  exists w2. split; [exact H2|].
  apply commitEffects_keeps with (u := u) in H2 as (Hin2 & _);
    destruct w1; cbn in *; assumption.
Qed.

Lemma unmount_keeps_interval c i m j t k D :
  timers (unmount (typing c i m j t k D))
  = [mkTimer (S k) (t + typingSpeed m) (Some (typingSpeed m)) (typeTimer m j)].
Proof.
  unfold unmount, typing, runCleanup, clearTimeout, clearTimer. cbn.
  now rewrite (proj2 (Nat.eqb_neq (S k) k)) by lia.
Qed.

(** Outside typing the cleanup is enough: a playback that waits in a
    pause or in the cooldown and is bound to a call that is not in progress
    ends with that call's transcript displayed and no timer pending. *)
Lemma rebind_static_from_pausing c c' i m t k D r :
  status c' <> in_progress ->
  exists w',
    rebind c' (pausing c i m t k D r) = Ok w'
    /\ displayedMessages (hooks w') = transcript c'
    /\ isTyping (hooks w') = false
    /\ timers w' = [].
Proof.
  intros Hs. unfold rebind, pausing, initEffect.
  assert (CallStatus_eqb (status c') in_progress = false) as ->
    by (destruct (status c'); [reflexivity..|congruence]).
  crunch.
  destruct (transcript_ref c =? transcript_ref c')%nat; crunch.
  { eexists. repeat split. }
  destruct (Nat.leb_spec (length (allMessages c')) i); crunch.
  { eexists. repeat split. }
  destruct (nth_error (allMessages c') i) eqn:E;
    [|apply nth_error_None in E; lia].
  crunch. eexists. repeat split.
Qed.

(** ** The claims *)

Lemma newMessage_id_inj m t1 t2 :
  id (newMessage m t1) = id (newMessage m t2) -> t1 = t2.
Proof.
  cbn. intros H. apply app_inv_head in H. injection H as H.
  now apply Number_toString_inj.
Qed.

Lemma play_time_pos m : 0 < play_time m.
Proof.
  unfold play_time.
  pose proof (pauseBeforeTyping_pos m). pose proof (typingSpeed_pos m).
  assert (0 < typingSpeed m * (Z.of_nat (length (content m)) + 1))
    by (apply Z.mul_pos_pos; lia).
  lia.
Qed.

Lemma script_time_nonneg ms : 0 <= script_time ms.
Proof.
  induction ms as [|m ms IH]; cbn; [lia|].
  pose proof (play_time_pos m). lia.
Qed.

Lemma cycle_time_pos c : 0 < cycle_time c.
Proof.
  unfold cycle_time. pose proof (script_time_nonneg (allMessages c)). lia.
Qed.

(** The same script message committed in two different cycles. *)
Lemma replay_ids_differ c m t n1 n2 :
  n1 <> n2 ->
  id (newMessage m (t + Z.of_nat n1 * cycle_time c))
  <> id (newMessage m (t + Z.of_nat n2 * cycle_time c)).
Proof.
  intros Hne Hid. apply newMessage_id_inj in Hid.
  pose proof (cycle_time_pos c).
  assert (Z.of_nat n1 * cycle_time c = Z.of_nat n2 * cycle_time c) as Heq by lia.
  apply Z.mul_cancel_r in Heq; lia.
Qed.

(** C7.  When the typing interval fires with the whole content revealed,
    the step commits one message: its id is the id of the script message
    followed by "-" and the clock in decimal, its timestamp is the clock
    in ISO form, its role and content are those of the script message; it
    is appended to the displayed list, the typing text is cleared,
    [isTyping] becomes false and the index moves on.  Two commits of one
    script message at different clock values get different ids, and so do
    its commits in two different cycles of a playback. *)
Theorem commit_transition w t m charIndex :
  mounted w = true ->
  next_timer (timers w) = Some t ->
  callback t = typeTimer m charIndex ->
  (length (content m) <= charIndex)%nat ->
  let T := Z.max (now w) (due t) in
  let nm := mkMessage (id m ++ utf16 "-" ++ Number_toString T)
              (role m) (content m) (toISOString T) in
  exists w',
    step w = Fired (Committed nm) w'
    /\ now w' = T
    /\ displayedMessages (hooks w') = displayedMessages (hooks w) ++ [nm]
    /\ currentTypingText (hooks w') = []
    /\ isTyping (hooks w') = false
    /\ messageIndex (hooks w') = S (messageIndex (hooks w))
    /\ (forall T', id (newMessage m T') = id nm -> T' = T)
    /\ (forall c t1 n1 n2, n1 <> n2 ->
          id (newMessage m (t1 + Z.of_nat n1 * cycle_time c))
          <> id (newMessage m (t1 + Z.of_nat n2 * cycle_time c))).
Proof.
  intros Hmounted Hnext Hcb Hlen T nm.
  destruct w as [t0 n ts b c h d k]. cbn in Hmounted, Hnext, T. subst b.
  unfold step. cbn [timers now]. rewrite Hnext.
  unfold fire. rewrite Hcb, (proj2 (Nat.ltb_ge _ _) Hlen).
  unfold clearInterval, clearTimer, rearm, setState. cbn.
  match goal with
  | |- context [commitEffects continuation ?x] =>
    destruct (commitEffects_ok x) as (w' & -> & Hh & Hn & _)
  end.
  exists w'. cbn in Hh, Hn. rewrite Hh, Hn. destruct h; cbn.
  repeat split.
  - intros T' HT'. exact (newMessage_id_inj m T' T HT').
  - intros c0 t1 n1 n2. apply replay_ids_differ.
Qed.

(** C4.  From the start of typing a message, tick after tick, the typing
    text is extended by one code unit of the content; after as many ticks
    as the content is long it is the whole content; the next tick commits
    the message once, clears the text and the interval is gone. *)
Theorem typewriter_reveals_prefixes c i m t k D :
  let L := length (content m) in
  let w0 := typing c i m 0 t k D in
  currentTypingText (hooks w0) = []
  /\ (forall j, (j < L)%nat ->
       exists wj wj' x,
         run j w0 = Ok (typed_events m 1 j, wj)
         /\ step wj = Fired (Typed m (currentTypingText (hooks wj'))) wj'
         /\ currentTypingText (hooks wj')
            = currentTypingText (hooks wj) ++ [x]
         /\ currentTypingText (hooks wj') = firstn (S j) (content m)
         /\ isTyping (hooks wj') = true
         /\ displayedMessages (hooks wj') = D)
  /\ (exists wL,
        run L w0 = Ok (typed_events m 1 L, wL)
        /\ commits (typed_events m 1 L) = []
        /\ currentTypingText (hooks wL) = content m
        /\ exists w',
             step wL
             = Fired (Committed
                        (newMessage m (t + typingSpeed m * (Z.of_nat L + 1))))
                 w'
             /\ displayedMessages (hooks w')
                = D ++ [newMessage m (t + typingSpeed m * (Z.of_nat L + 1))]
             /\ currentTypingText (hooks w') = []
             /\ isTyping (hooks w') = false
             /\ existsb is_typeTimer (timers w') = false).
Proof.
  intros L w0. split; [reflexivity|]. split.
  - intros j Hj. destruct (firstn_snoc (content m) j Hj) as [x Hx].
    exists (typing c i m j (t + typingSpeed m * Z.of_nat j) k D),
      (typing c i m (S j)
         (t + typingSpeed m * Z.of_nat j + typingSpeed m) k D), x.
    split; [apply (run_typing c i m k D j 0); cbn; lia|].
    split; [apply step_typing_tick; exact Hj|].
    cbn. now repeat split.
  - eexists. split; [apply run_typing; cbn; lia|].
    split; [apply commits_typed|]. cbn [Nat.add].
    split; [apply firstn_all|].
    destruct (step_typing_done c i m (t + typingSpeed m * Z.of_nat L) k D)
      as (w' & Hs & Hh & _ & Ht).
    replace (t + typingSpeed m * (Z.of_nat L + 1))
      with (t + typingSpeed m * Z.of_nat L + typingSpeed m) by lia.
    exists w'. split; [exact Hs|]. rewrite Hh. now repeat split.
Qed.



(** C8, as amended.  At every point of a live playback the next timer
    event either commits a message, which is then appended to the displayed
    list and leaves the entries before it as they were, or is the loop
    reset, which puts back the list displayed when the call was bound
    (its length is the length of the transcript minus one, zero for an
    empty transcript), or leaves the displayed list unchanged. *)
Theorem displayed_append_only c t0 n :
  status c = in_progress ->
  allMessages c <> [] ->
  exists w0 es w e w',
    mount c t0 = Ok w0
    /\ run n w0 = Ok (es, w)
    /\ length es = n
    /\ step w = Fired e w'
    /\ match e with
       | Committed m =>
         displayedMessages (hooks w') = displayedMessages (hooks w) ++ [m]
       | LoopReset =>
         displayedMessages (hooks w') = displayedMessages (hooks w0)
         /\ length (displayedMessages (hooks w'))
            = (length (transcript c) - 1)%nat
       | _ => displayedMessages (hooks w') = displayedMessages (hooks w)
       end
    /\ (e <> LoopReset ->
        (length (displayedMessages (hooks w))
         <= length (displayedMessages (hooks w')))%nat).
Proof.
  intros Hs Hne. destruct (allMessages_head c Hne) as [m0 Hm0].
  destruct (playing_run c n _ (playing_pausing continuation c 0 m0 t0 1
              (slice (transcript c) 0 (Some (-1))) ai Hm0))
    as (es & w & Hr & Hlen & Hw).
  destruct (playing_step c w Hw) as (e & w' & Hstep & _ & HD).
  eexists _, es, w, e, w'.
  split; [apply mount_live; [exact Hs|exact Hm0]|].
  split; [exact Hr|]. split; [exact Hlen|]. split; [exact Hstep|].
  destruct e; rewrite HD.
  - split; [split; [reflexivity|apply length_slice_all_but_last]|congruence].
  - split; [reflexivity|intros _; apply Nat.le_refl].
  - split; [reflexivity|intros _; apply Nat.le_refl].
  - split; [reflexivity|intros _; rewrite length_app; apply Nat.le_add_r].
Qed.

End Playback.

(** ** Sessions: what binding a call leaves behind *)
Section Sessions.

Variable continuation : list CallMessage.

Local Abbreviation allMessages := (allMessages continuation).
Local Abbreviation step := (step continuation).
Local Abbreviation run := (run continuation).
Local Abbreviation mount := (mount continuation).
Local Abbreviation rebind := (rebind continuation).
Local Abbreviation cooling := (cooling continuation).
Local Abbreviation playing := (playing continuation).
Local Abbreviation synced := (synced continuation).
Local Abbreviation in_sync := (in_sync continuation).
Local Abbreviation session := (session continuation).
Local Abbreviation binding := (binding continuation).
Local Abbreviation settled := (settled continuation).
Local Abbreviation bound := (bound continuation).
Local Abbreviation cycle_steps := (cycle_steps continuation).
Local Abbreviation cycle_time := (cycle_time continuation).

Local Arguments Nat.ltb : simpl never.
Local Arguments Nat.leb : simpl never.
Local Arguments Z.add : simpl never.
Local Arguments Z.max : simpl never.
Local Arguments Z.ltb : simpl never.
Local Arguments Nat.eqb : simpl nomatch.
Local Arguments Z.of_nat : simpl never.
Local Arguments slice : simpl never.
Local Arguments firstn : simpl never.
Local Arguments nth_error : simpl never.

Ltac crunch :=
  repeat (cbn;
          first [ rewrite max_later
                    by first [apply typingSpeed_pos | apply pauseBeforeTyping_pos | lia]
                | rewrite Nat.eqb_refl
                | rewrite (proj2 (Nat.eqb_neq _ _)) by lia
                | rewrite (proj2 (Nat.leb_gt _ _)) by lia
                | rewrite (proj2 (Nat.leb_le _ _)) by lia
                | progress unfold commitEffects, liveDemoEffect, deps, deps_eqb,
                    runCleanup, clearTimeout, clearInterval, clearTimer,
                    setTimeout, setInterval, setState, set_charIndex, rearm ]).

Lemma not_in_progress s :
  s <> in_progress -> CallStatus_eqb s in_progress = false.
Proof. destruct s; [reflexivity..|congruence]. Qed.

Lemma rebind_pausing_static c c' i m t k D r :
  status c' <> in_progress ->
  exists k', rebind c' (pausing c i m t k D r) = Ok (idle c' i t k' r).
Proof.
  intros Hs. unfold rebind, pausing, idle, initEffect.
  rewrite (not_in_progress _ Hs). crunch.
  destruct (transcript_ref c =? transcript_ref c')%nat; crunch.
  { eexists. reflexivity. }
  destruct (Nat.leb_spec (length (allMessages c')) i); crunch.
  { eexists. reflexivity. }
  destruct (nth_error (allMessages c') i) eqn:E;
    [|apply nth_error_None in E; lia].
  crunch. eexists. reflexivity.
Qed.

Lemma rebind_cooling_static c c' t k D r :
  status c' <> in_progress ->
  exists k',
    rebind c' (cooling c t k D r)
    = Ok (idle c' (length (allMessages c)) t k' r).
Proof.
  intros Hs. unfold rebind, cooling, idle, initEffect.
  rewrite (not_in_progress _ Hs). crunch.
  destruct (transcript_ref c =? transcript_ref c')%nat; crunch.
  { eexists. reflexivity. }
  destruct (Nat.leb_spec (length (allMessages c')) (length (allMessages c)));
    crunch.
  { eexists. reflexivity. }
  destruct (nth_error (allMessages c') (length (allMessages c))) eqn:E;
    [|apply nth_error_None in E; lia].
  crunch. eexists. reflexivity.
Qed.

Lemma rebind_idle_static c c' i t k r :
  status c' <> in_progress ->
  rebind c' (idle c i t k r) = Ok (idle c' i t k r).
Proof.
  intros Hs. unfold rebind, idle, initEffect.
  rewrite (not_in_progress _ Hs).
  destruct (Nat.eq_dec (transcript_ref c) (transcript_ref c')) as [Href|Href];
    [rewrite Href|]; crunch; reflexivity.
Qed.

Lemma rebind_idle_live c c' i t k r m0 :
  status c' = in_progress ->
  nth_error (allMessages c') 0 = Some m0 ->
  rebind c' (idle c i t k r)
  = Ok (pausing c' 0 m0 t k (slice (transcript c') 0 (Some (-1))) r).
Proof.
  intros Hs Hm0.
  assert (0 < length (allMessages c'))%nat
    by (apply nth_error_Some; congruence).
  unfold rebind, idle, pausing, initEffect. rewrite Hs.
  destruct (Nat.eq_dec (transcript_ref c) (transcript_ref c')) as [Href|Href];
    [rewrite Href|]; crunch; rewrite Hm0; reflexivity.
Qed.

Lemma rebind_live_from_pausing c c' i m m0 t k D r :
  status c' = in_progress ->
  transcript_ref c <> transcript_ref c' ->
  nth_error (allMessages c') 0 = Some m0 ->
  exists k',
    rebind c' (pausing c i m t k D r)
    = Ok (pausing c' 0 m0 t k' (slice (transcript c') 0 (Some (-1))) r).
Proof.
  intros Hs Href Hm0.
  assert (0 < length (allMessages c'))%nat
    by (apply nth_error_Some; congruence).
  unfold rebind, pausing, initEffect. rewrite Hs. crunch.
  destruct (Nat.leb_spec (length (allMessages c')) i); crunch.
  - rewrite Hm0. eexists. reflexivity.
  - destruct (nth_error (allMessages c') i) eqn:E;
      [|apply nth_error_None in E; lia].
    crunch. destruct i as [|i]; crunch.
    + rewrite Hm0 in E. injection E as <-. eexists. reflexivity.
    + rewrite Hm0. eexists. reflexivity.
Qed.

Lemma rebind_live_from_cooling c c' m0 t k D r :
  status c' = in_progress ->
  transcript_ref c <> transcript_ref c' ->
  allMessages c <> [] ->
  nth_error (allMessages c') 0 = Some m0 ->
  exists k',
    rebind c' (cooling c t k D r)
    = Ok (pausing c' 0 m0 t k' (slice (transcript c') 0 (Some (-1))) r).
Proof.
  intros Hs Href Hne Hm0.
  assert (0 < length (allMessages c'))%nat
    by (apply nth_error_Some; congruence).
  assert (0 < length (allMessages c))%nat
    by (destruct (allMessages c); [congruence|cbn; lia]).
  unfold rebind, cooling, initEffect. rewrite Hs. crunch.
  destruct (Nat.leb_spec (length (allMessages c')) (length (allMessages c)));
    crunch.
  - rewrite Hm0. eexists. reflexivity.
  - destruct (nth_error (allMessages c') (length (allMessages c))) eqn:E;
      [|apply nth_error_None in E; lia].
    crunch. rewrite Hm0. eexists. reflexivity.
Qed.

Lemma rebind_pausing_live c c' i m m0 t k D r :
  status c' = in_progress ->
  (transcript_ref c = transcript_ref c' -> transcript c = transcript c') ->
  nth_error (allMessages c) i = Some m ->
  nth_error (allMessages c') 0 = Some m0 ->
  exists k',
    rebind c' (pausing c i m t k D r)
    = Ok (pausing c' 0 m0 t k' (slice (transcript c') 0 (Some (-1))) r).
Proof.
  intros Hs Hwf Hm Hm0.
  destruct (Nat.eq_dec (transcript_ref c) (transcript_ref c')) as [Href|Href];
    [|now apply rebind_live_from_pausing].
  assert (0 < length (allMessages c'))%nat
    by (apply nth_error_Some; congruence).
  assert (allMessages c = allMessages c') as Hall
    by (unfold allMessages; now rewrite (Hwf Href)).
  rewrite Hall in Hm.
  unfold rebind, pausing, initEffect. rewrite Hs, Href. crunch.
  destruct i as [|i]; crunch.
  - rewrite Hm0 in Hm. injection Hm as <-. eexists. reflexivity.
  - rewrite Hm0. eexists. reflexivity.
Qed.

Lemma rebind_cooling_live c c' m0 m1 t k D r :
  status c' = in_progress ->
  nth_error (allMessages c) 0 = Some m1 ->
  nth_error (allMessages c') 0 = Some m0 ->
  exists k',
    rebind c' (cooling c t k D r)
    = Ok (pausing c' 0 m0 t k' (slice (transcript c') 0 (Some (-1))) r).
Proof.
  intros Hs Hm1 Hm0.
  destruct (Nat.eq_dec (transcript_ref c) (transcript_ref c')) as [Href|Href];
    [|apply rebind_live_from_cooling; try assumption;
      intros E; now rewrite E in Hm1].
  assert (0 < length (allMessages c'))%nat
    by (apply nth_error_Some; congruence).
  assert (0 < length (allMessages c))%nat
    by (apply nth_error_Some; congruence).
  unfold rebind, cooling, pausing, initEffect. rewrite Hs, Href. crunch.
  rewrite Hm0. eexists. reflexivity.
Qed.

Lemma firstn_S_nth {A : Type} (l : list A) (i : nat) (x : A) :
  nth_error l i = Some x -> firstn (S i) l = firstn i l ++ [x].
Proof.
  revert i. induction l as [|a l IH]; intros [|i] H; try discriminate.
  - cbn in H. now injection H as ->.
  - change (firstn (S (S i)) (a :: l)) with (a :: firstn (S i) l).
    rewrite (IH i H). reflexivity.
Qed.

Lemma in_sync_start c : in_sync c 0 (slice (transcript c) 0 (Some (-1))).
Proof. exists []. split; [now rewrite app_nil_r|constructor]. Qed.

Lemma in_sync_commit c i D m t :
  nth_error (allMessages c) i = Some m ->
  in_sync c i D ->
  in_sync c (S i) (D ++ [newMessage m t]).
Proof.
  intros Hm (shown & -> & Hshown). exists (shown ++ [newMessage m t]).
  split; [now rewrite app_assoc|].
  rewrite (firstn_S_nth _ _ _ Hm). apply Forall2_app; [exact Hshown|].
  constructor; [now split|constructor].
Qed.

Lemma synced_step c w :
  synced c w -> exists e w', step w = Fired e w' /\ synced c w'.
Proof.
  intros [i m t k D r Hm HD | i m j t k D Hm Hj HD | m0 t k D r Hm0 HD].
  - eexists _, _. split; [apply step_pausing|].
    apply synced_typing; [exact Hm|lia|exact HD].
  - destruct (Nat.eq_dec j (length (content m))) as [->|Hne].
    + assert (i < length (allMessages c))%nat
        by (apply nth_error_Some; congruence).
      destruct (nth_error (allMessages c) (S i)) as [m'|] eqn:Hm'.
      * eexists _, _. split; [apply step_typing_commit; exact Hm'|].
        apply synced_pausing; [exact Hm'|now apply in_sync_commit].
      * apply nth_error_None in Hm'.
        assert (S i = length (allMessages c)) as Hlast by lia.
        destruct (nth_error (allMessages c) 0) as [m0|] eqn:Hm0;
          [|apply nth_error_None in Hm0; lia].
        eexists _, _. split; [apply step_typing_last; exact Hlast|].
        apply (synced_cooling _ _ m0); [exact Hm0|].
        rewrite <- Hlast. now apply in_sync_commit.
    + eexists _, _. split; [apply step_typing_tick; lia|].
      apply synced_typing; [exact Hm|lia|exact HD].
  - eexists _, _. split; [apply step_cooling; exact Hm0|].
    apply synced_pausing; [exact Hm0|apply in_sync_start].
Qed.

Lemma synced_run c n :
  forall w, synced c w ->
  exists es w', run n w = Ok (es, w') /\ length es = n /\ synced c w'.
Proof.
  induction n as [|n IH]; intros w Hw.
  - exists [], w. now repeat split.
  - destruct (synced_step _ _ Hw) as (e & w1 & Hs & Hw1).
    destruct (IH _ Hw1) as (es & w' & Hr & Hlen & Hw').
    exists (e :: es), w'. repeat split; [|cbn; lia|assumption].
    now apply (run_step continuation _ _ _ _ _ _ Hs).
Qed.

Lemma synced_facts c w :
  synced c w ->
  in_sync c (messageIndex (hooks w)) (displayedMessages (hooks w))
  /\ (messageIndex (hooks w) <= length (allMessages c))%nat.
Proof.
  intros [i m t k D r Hm HD | i m j t k D Hm Hj HD | m0 t k D r Hm0 HD]; cbn.
  - split; [exact HD|]. apply Nat.lt_le_incl, nth_error_Some. congruence.
  - split; [exact HD|]. apply Nat.lt_le_incl, nth_error_Some. congruence.
  - split; [exact HD|apply Nat.le_refl].
Qed.

Lemma synced_playing c w : synced c w -> playing c w.
Proof.
  intros [i m t k D r Hm HD | i m j t k D Hm Hj HD | m0 t k D r Hm0 HD].
  - now apply playing_pausing.
  - now apply playing_typing.
  - now apply (playing_cooling _ _ m0).
Qed.

Lemma script_head c : continuation <> [] ->
  exists m0, nth_error (allMessages c) 0 = Some m0.
Proof.
  intros Hne. apply allMessages_head. unfold allMessages.
  destruct (slice (transcript c) (-1) None); [exact Hne|discriminate].
Qed.

Lemma bound_settled c t w : bound c t w -> settled c w.
Proof.
  intros [m0 k r Hs Hm0 | i k r Hs].
  - apply settled_live; [exact Hs|].
    apply synced_pausing; [exact Hm0|apply in_sync_start].
  - now apply settled_idle.
Qed.

Lemma bound_now c t w : bound c t w -> now w = t.
Proof. now intros [m0 k r Hs Hm0 | i k r Hs]. Qed.

Lemma mount_bound c t0 :
  continuation <> [] -> exists w, mount c t0 = Ok w /\ bound c t0 w.
Proof.
  intros Hne.
  destruct (CallStatus_eqb (status c) in_progress) eqn:E.
  - assert (status c = in_progress) as Hs
      by (destruct (status c); [discriminate..|reflexivity]).
    destruct (script_head c Hne) as [m0 Hm0].
    eexists. split; [apply mount_live; [exact Hs|exact Hm0]|].
    now apply bound_live.
  - assert (status c <> in_progress) as Hs
      by (intros H; rewrite H in E; discriminate).
    eexists. split; [apply mount_static; exact Hs|].
    now apply bound_idle.
Qed.

Lemma rebind_bound c c' w :
  continuation <> [] ->
  settled c w ->
  isTyping (hooks w) = false ->
  (transcript_ref c = transcript_ref c' -> transcript c = transcript c') ->
  exists w', rebind c' w = Ok w' /\ bound c' (now w) w'.
Proof.
  intros Hne Hw Hty Hwf.
  destruct (CallStatus_eqb (status c') in_progress) eqn:E.
  - assert (status c' = in_progress) as Hs'
      by (destruct (status c'); [discriminate..|reflexivity]).
    destruct (script_head c' Hne) as [m0 Hm0].
    destruct Hw as [w Hs Hw | i t k r Hs].
    + destruct Hw as [i m t k D r Hm HD | i m j t k D Hm Hj HD
                     | m1 t k D r Hm1 HD]; [| discriminate Hty |].
      * destruct (rebind_pausing_live c c' i m m0 t k D r Hs' Hwf Hm Hm0)
          as [k' Hr].
        eexists. split; [exact Hr|]. now apply bound_live.
      * destruct (rebind_cooling_live c c' m0 m1 t k D r Hs' Hm1 Hm0)
          as [k' Hr].
        eexists. split; [exact Hr|]. now apply bound_live.
    + eexists. split; [apply rebind_idle_live; [exact Hs'|exact Hm0]|].
      now apply bound_live.
  - assert (status c' <> in_progress) as Hs'
      by (intros H; rewrite H in E; discriminate).
    destruct Hw as [w Hs Hw | i t k r Hs].
    + destruct Hw as [i m t k D r Hm HD | i m j t k D Hm Hj HD
                     | m1 t k D r Hm1 HD]; [| discriminate Hty |].
      * destruct (rebind_pausing_static c c' i m t k D r Hs') as [k' Hr].
        eexists. split; [exact Hr|]. now apply bound_idle.
      * destruct (rebind_cooling_static c c' t k D r Hs') as [k' Hr].
        eexists. split; [exact Hr|]. now apply bound_idle.
    + eexists. split; [apply rebind_idle_static; exact Hs'|].
      now apply bound_idle.
Qed.

Lemma settled_step c w e w' :
  settled c w -> step w = Fired e w' -> settled c w'.
Proof.
  intros [w0 Hs Hw | i t k r Hs] Hstep.
  - destruct (synced_step c w0 Hw) as (e1 & w1 & H1 & Hw1).
    rewrite H1 in Hstep. injection Hstep as <- <-.
    now apply settled_live.
  - discriminate Hstep.
Qed.

Lemma session_settled c w :
  continuation <> [] -> session c w -> settled c w.
Proof.
  intros Hne Hw.
  induction Hw as [c t0 w Hm | c w e w' Hw IH Hstep
                  | c c' w w' Hw IH Hty Hwf Hr].
  - destruct (mount_bound c t0 Hne) as (w1 & Hm1 & Hb).
    rewrite Hm1 in Hm. injection Hm as <-. exact (bound_settled _ _ _ Hb).
  - exact (settled_step _ _ _ _ IH Hstep).
  - destruct (rebind_bound c c' w Hne IH Hty Hwf) as (w1 & Hr1 & Hb).
    rewrite Hr1 in Hr. injection Hr as <-. exact (bound_settled _ _ _ Hb).
Qed.

Lemma binding_bound c t0 r :
  continuation <> [] -> binding c t0 r -> exists w, r = Ok w /\ bound c t0 w.
Proof.
  intros Hne [t | c0 w Hw Hty Hwf].
  - now apply mount_bound.
  - apply (rebind_bound c0 c w Hne); [|exact Hty|exact Hwf].
    now apply session_settled.
Qed.

Lemma session_run c n :
  forall w es w', session c w -> run n w = Ok (es, w') -> session c w'.
Proof.
  induction n as [|n IH]; intros w es w' Hw Hr.
  - cbn in Hr. now injection Hr as <- <-.
  - rewrite run_S in Hr. destruct (step w) as [|e w1|] eqn:Hs.
    + now injection Hr as <- <-.
    + destruct (run n w1) as [[es1 w2]|] eqn:Hr1; [|discriminate Hr].
      cbn in Hr. injection Hr as <- <-.
      apply (IH w1 es1 w2); [|exact Hr1].
      exact (session_step _ _ _ _ _ Hw Hs).
    + discriminate Hr.
Qed.

(** ** The claims on binding *)




End Sessions.

(** ** The claims on the component and on the scenarios *)

(** C1.  The cleanup of the live-demo effect clears the pause timer only.
    When the parent passes another call while a message is being typed, the
    typing interval of the old call stays pending: its ticks go on writing
    the old text into the state of the new call and its last tick commits
    the old message into the new displayed list and moves the index.  When
    the component is unmounted instead, the interval stays pending as well
    and fires until its message is complete. *)
Theorem stale_interval_survives_rebind :
  exists w0 es1 w1 w2 es3 w3 w4,
    CallDetailModal greeting_call t_bind = Ok w0
    /\ run simulatedContinuation 3 w0 = Ok (es1, w1)
    /\ es1 = [TypingStarted msgHello; Typed msgHello (utf16 "H");
              Typed msgHello (utf16 "He")]
    /\ rebind simulatedContinuation completed_call w1 = Ok w2
    /\ displayedMessages (hooks w2) = history
    /\ isLiveDemo (hooks w2) = false
    /\ isTyping (hooks w2) = true
    /\ currentTypingText (hooks w2) = utf16 "He"
    /\ map callback (timers w2) = [typeTimer msgHello 2]
    /\ run simulatedContinuation 4 w2 = Ok (es3, w3)
    /\ es3 = [Typed msgHello (utf16 "Hel"); Typed msgHello (utf16 "Hell");
              Typed msgHello (utf16 "Hello");
              Committed (newMessage msgHello (t_bind + 980))]
    /\ displayedMessages (hooks w3)
       = history ++ [newMessage msgHello (t_bind + 980)]
    /\ messageIndex (hooks w3) = 1%nat
    /\ map callback (timers (unmount w1)) = [typeTimer msgHello 2]
    /\ run simulatedContinuation 4 (unmount w1) = Ok (es3, w4)
    /\ timers w4 = [].
Proof.
  do 7 eexists.
  do 15 (split; [vm_compute; reflexivity|]).
  vm_compute; reflexivity.
Qed.



(** C3, the claim as stated fails on its own scenario.  Bound to the call
    whose transcript is the seed A, with the continuation Q1, A1, the
    component first displays nothing; the messages committed before the
    first reset are A, Q1 and A1, in this order, and the reset empties the
    displayed list. *)
Lemma scenario_commits_the_seed_first :
  exists w0 es wc w1,
    mount [msgQ1; msgA1] scenario_call t_bind = Ok w0
    /\ displayedMessages (hooks w0) = []
    /\ run [msgQ1; msgA1] 11 w0 = Ok (es, wc)
    /\ ~ In LoopReset es
    /\ map content (commits es) = [utf16 "A"; utf16 "Q1"; utf16 "A1"]
    /\ map content (commits es) <> [utf16 "Q1"; utf16 "A1"]
    /\ step [msgQ1; msgA1] wc = Fired LoopReset w1
    /\ displayedMessages (hooks w1) = []
    /\ displayedMessages (hooks w1) <> [msgA].
Proof.
  do 4 eexists.
  do 3 (split; [vm_compute; reflexivity|]).
  split; [vm_compute; intuition discriminate|].
  split; [vm_compute; reflexivity|].
  split; [vm_compute; discriminate|].
  do 2 (split; [vm_compute; reflexivity|]).
  vm_compute. discriminate.
Qed.

(** C3, as amended.  In the scenario every cycle starts from the empty
    displayed list and index 0, commits A, Q1 and A1 in this order, three
    messages in 11 timer events, and is closed by the loop reset, which
    empties the displayed list again; a cycle takes 12 timer events and
    6400 ms. *)
Theorem scenario_cycle_commits_three t0 n :
  exists w0 es wn wc w1,
    mount [msgQ1; msgA1] scenario_call t0 = Ok w0
    /\ run [msgQ1; msgA1] (n * 12) w0 = Ok (es, wn)
    /\ now wn = t0 + Z.of_nat n * 6400
    /\ displayedMessages (hooks wn) = []
    /\ messageIndex (hooks wn) = 0%nat
    /\ run [msgQ1; msgA1] 11 wn
       = Ok (script_events [msgA; msgQ1; msgA1] (now wn), wc)
    /\ commits (script_events [msgA; msgQ1; msgA1] (now wn))
       = [newMessage msgA (now wn + 860);
          newMessage msgQ1 (now wn + 860 + 1650);
          newMessage msgA1 (now wn + 860 + 1650 + 890)]
    /\ displayedMessages (hooks wc)
       = commits (script_events [msgA; msgQ1; msgA1] (now wn))
    /\ step [msgQ1; msgA1] wc = Fired LoopReset w1
    /\ now w1 = now wn + 6400
    /\ displayedMessages (hooks w1) = []
    /\ messageIndex (hooks w1) = 0%nat.
Proof.
  assert (nth_error (allMessages [msgQ1; msgA1] scenario_call) 0 = Some msgA)
    as Hm0 by reflexivity.
  destruct (run_cycles [msgQ1; msgA1] scenario_call msgA n Hm0 t0 1%nat ai)
    as (es & k' & r' & Hcycles).
  destruct (run_pass [msgQ1; msgA1] scenario_call msgA
              (t0 + Z.of_nat n * 6400) k' [] r' Hm0)
    as (wc & Hpass & Hh & Hn & Hstep).
  eexists _, es, _, wc, _.
  split; [apply (mount_live [msgQ1; msgA1] scenario_call msgA t0 eq_refl Hm0)|].
  split; [exact Hcycles|].
  do 3 (split; [reflexivity|]).
  split; [exact Hpass|].
  split; [reflexivity|].
  split; [rewrite Hh; reflexivity|].
  split; [exact Hstep|].
  repeat split.
Qed.

(** [greeting_said] is a point of the session that mounts the greeting
    call at [t_bind]. *)
Lemma greeting_said_in_session :
  CallDetailModal greeting_call t_bind = Ok greeting_bound
  /\ run simulatedContinuation 7 greeting_bound
     = Ok (message_events msgHello t_bind, greeting_said)
  /\ session simulatedContinuation greeting_call greeting_said.
Proof.
  assert (CallDetailModal greeting_call t_bind = Ok greeting_bound) as Hm
    by reflexivity.
  assert (run simulatedContinuation 7 greeting_bound
          = Ok (message_events msgHello t_bind, greeting_said)) as Hr
    by (vm_compute; reflexivity).
  split; [exact Hm|]. split; [exact Hr|].
  exact (session_run simulatedContinuation greeting_call 7 greeting_bound _ _
           (session_mount simulatedContinuation _ _ _ Hm) Hr).
Defined.




(** C6, as amended: why the call has to be bound outside typing.  The
    greeting call is mounted and three timer events later the parent passes
    the missed call with an empty transcript: the typing interval of the
    greeting is pending, and four timer events later the greeting is
    displayed. *)
Lemma empty_call_bound_while_typing :
  exists w0 es1 w1 w2 es3 w3,
    CallDetailModal greeting_call t_bind = Ok w0
    /\ run simulatedContinuation 3 w0 = Ok (es1, w1)
    /\ isTyping (hooks w1) = true
    /\ rebind simulatedContinuation empty_missed_call w1 = Ok w2
    /\ displayedMessages (hooks w2) = []
    /\ isTyping (hooks w2) = true
    /\ map callback (timers w2) = [typeTimer msgHello 2]
    /\ run simulatedContinuation 4 w2 = Ok (es3, w3)
    /\ length es3 = 4%nat
    /\ displayedMessages (hooks w3) = [newMessage msgHello (t_bind + 980)].
Proof.
  do 6 eexists.
  do 9 (split; [vm_compute; reflexivity|]).
  vm_compute. reflexivity.
Qed.


(** C7 at the last tick of the greeting. *)
Lemma commit_transition_witness :
  exists w',
    step simulatedContinuation (typing greeting_call 0 msgHello 5 t_bind 1 [])
    = Fired (Committed (mkMessage (utf16 "m1-1714557600030") ai
                          (utf16 "Hello") (utf16 "2024-05-01T10:00:00.030Z")))
        w'
    /\ length (displayedMessages (hooks w')) = 1%nat
    /\ isTyping (hooks w') = false.
Proof.
  destruct (commit_transition simulatedContinuation
              (typing greeting_call 0 msgHello 5 t_bind 1 [])
              (mkTimer 2 (t_bind + 30) (Some 30) (typeTimer msgHello 5))
              msgHello 5 eq_refl eq_refl eq_refl (le_n 5))
    as (w' & Hs & _ & Hd & _ & Ht & _ & _ & _).
  exists w'. rewrite Hd. repeat split; assumption.
Defined.

(** C8, the claim as stated fails on a call with three messages so far:
    the reset puts back two messages, the seed alone is one. *)
Lemma reset_length_is_not_the_seed_length :
  exists w0 es wc w1,
    CallDetailModal order_call t_bind = Ok w0
    /\ length (displayedMessages (hooks w0)) = 2%nat
    /\ run simulatedContinuation 435 w0 = Ok (es, wc)
    /\ length (displayedMessages (hooks wc)) = 15%nat
    /\ step simulatedContinuation wc = Fired LoopReset w1
    /\ length (displayedMessages (hooks w1)) = 2%nat
    /\ length (slice (transcript order_call) (-1) None) = 1%nat.
Proof.
  do 4 eexists.
  do 6 (split; [vm_compute; reflexivity|]).
  vm_compute. reflexivity.
Qed.

(** C8, as amended, at the call with three messages so far. *)
Lemma displayed_append_only_witness :
  exists w0 es w e w',
    CallDetailModal order_call t_bind = Ok w0
    /\ run simulatedContinuation 435 w0 = Ok (es, w)
    /\ length es = 435%nat
    /\ step simulatedContinuation w = Fired e w'.
Proof.
  destruct (displayed_append_only simulatedContinuation order_call t_bind 435
              eq_refl ltac:(discriminate))
    as (w0 & es & w & e & w' & Hm & Hr & Hl & Hs & _ & _).
  exists w0, es, w, e, w'. repeat split; assumption.
Defined.




(** * Further properties of the playback *)
Section PlaybackInvariants.

Variable continuation : list CallMessage.

Local Abbreviation allMessages := (allMessages continuation).
Local Abbreviation step := (step continuation).
Local Abbreviation run := (run continuation).
Local Abbreviation mount := (mount continuation).
Local Abbreviation rebind := (rebind continuation).
Local Abbreviation cooling := (cooling continuation).
Local Abbreviation playing := (playing continuation).
Local Abbreviation synced := (synced continuation).
Local Abbreviation in_sync := (in_sync continuation).
Local Abbreviation session := (session continuation).

Local Arguments Nat.ltb : simpl never.
Local Arguments Nat.leb : simpl never.
Local Arguments Z.add : simpl never.
Local Arguments Z.max : simpl never.
Local Arguments Z.ltb : simpl never.
Local Arguments Nat.eqb : simpl nomatch.
Local Arguments Z.of_nat : simpl never.
Local Arguments slice : simpl never.
Local Arguments firstn : simpl never.
Local Arguments nth_error : simpl never.

Ltac grind :=
  repeat (cbn;
          first [ rewrite max_later
                    by first [apply typingSpeed_pos | apply pauseBeforeTyping_pos | lia]
                | rewrite Nat.eqb_refl
                | rewrite (proj2 (Nat.eqb_neq _ _)) by lia
                | rewrite (proj2 (Nat.leb_gt _ _)) by lia
                | rewrite (proj2 (Nat.leb_le _ _)) by lia
                | progress unfold commitEffects, liveDemoEffect, deps, deps_eqb,
                    runCleanup, clearTimeout, clearInterval, clearTimer,
                    setTimeout, setInterval, setState, set_charIndex, rearm ]).

Lemma run_never_throws n : forall w, exists es w', run n w = Ok (es, w').
Proof.
  induction n as [|n IH]; intros w; [now exists [], w|].
  rewrite run_S. destruct (step w) as [|e w1|] eqn:Hs.
  - now exists [], w.
  - destruct (IH w1) as (es & w' & ->). now exists (e :: es), w'.
  - now apply step_never_throws in Hs.
Qed.

(** X1.  Whatever the state of the component, its timers and its props,
    no turn of the event loop, no run of any length, no mount and no
    re-render with another call raises. *)
Theorem engine_never_throws w c t0 n :
  step w <> Threw
  /\ (exists es w', run n w = Ok (es, w'))
  /\ (exists w', mount c t0 = Ok w')
  /\ (exists w', rebind c w = Ok w').
Proof.
  split; [apply step_never_throws|].
  split; [apply run_never_throws|].
  split; [apply mount_never_throws|apply rebind_never_throws].
Qed.

Lemma playing_facts c w :
  playing c w ->
  length (timers w) = 1%nat
  /\ isTyping (hooks w) = existsb is_typeTimer (timers w)
  /\ (isTyping (hooks w) = false -> currentTypingText (hooks w) = [])
  /\ (forall u, In u (timers w) -> now w < due u)
  /\ (isTyping (hooks w) = true ->
      exists m j,
        nth_error (allMessages c) (messageIndex (hooks w)) = Some m
        /\ currentTypingText (hooks w) = firstn j (content m)
        /\ typingRole (hooks w) = role m).
Proof.
  intros [i m t k D r Hm | i m j t k D Hm Hj | m0 t k D r Hm0]; cbn.
  - repeat split; try reflexivity; [|discriminate]. intros u [<-|[]]. cbn.
    pose proof (pauseBeforeTyping_pos m). lia.
  - repeat split; try reflexivity; [discriminate| |].
    + intros u [<-|[]]. cbn. pose proof (typingSpeed_pos m). lia.
    + intros _. now exists m, j.
  - repeat split; try reflexivity; [|discriminate]. intros u [<-|[]]. cbn. lia.
Qed.

(** X2.  At every point of a session, that is after a mount, timer
    events and re-renders with another call that happen while no message is
    being typed: when the bound call is not in progress no timer is pending
    and nothing is typed; when it is in progress exactly one timer is
    pending and it is due in the future, [isTyping] is true exactly when
    that timer is the typing interval, outside typing the typing text is
    empty, during typing it is a prefix of the content of the script message
    at [messageIndex], whose role is [typingRole], and every number of
    timer events happens and leaves a point of the session. *)
Theorem one_timer_at_a_time c w :
  continuation <> [] ->
  session c w ->
  (status c <> in_progress ->
   timers w = [] /\ isTyping (hooks w) = false /\ step w = Quiescent)
  /\ (status c = in_progress ->
      length (timers w) = 1%nat
      /\ isTyping (hooks w) = existsb is_typeTimer (timers w)
      /\ (isTyping (hooks w) = false -> currentTypingText (hooks w) = [])
      /\ (forall u, In u (timers w) -> now w < due u)
      /\ (isTyping (hooks w) = true ->
          exists m j,
            nth_error (allMessages c) (messageIndex (hooks w)) = Some m
            /\ currentTypingText (hooks w) = firstn j (content m)
            /\ typingRole (hooks w) = role m)
      /\ (forall n, exists es w',
            run n w = Ok (es, w') /\ length es = n /\ session c w')).
Proof.
  intros Hne Hsess.
  destruct (session_settled continuation c w Hne Hsess)
    as [w0 Hlive Hw | i t k r Hstatic].
  - split; [congruence|]. intros _.
    apply synced_playing in Hw.
    destruct (playing_facts c w0 Hw) as (H1 & H2 & H3 & H4 & H5).
    do 5 (split; [assumption|]).
    intros n.
    destruct (playing_run continuation c n w0 Hw) as (es & w' & Hr & Hlen & _).
    exists es, w'. split; [exact Hr|]. split; [exact Hlen|].
    exact (session_run continuation c n w0 es w' Hsess Hr).
  - split; [|congruence]. intros _. repeat split.
Qed.

(** X3.  At every point of a session: when the bound call is not in
    progress the displayed list is its transcript; when it is in progress
    the displayed list is the transcript without its last message followed
    by the first [messageIndex] messages of the script, in script order,
    each with the role and the content it has in the script, and
    [messageIndex] never exceeds the length of the script. *)
Theorem displayed_follows_script c w :
  continuation <> [] ->
  session c w ->
  (status c <> in_progress -> displayedMessages (hooks w) = transcript c)
  /\ (status c = in_progress ->
      exists shown,
        displayedMessages (hooks w)
        = slice (transcript c) 0 (Some (-1)) ++ shown
        /\ Forall2 same_turn shown
             (firstn (messageIndex (hooks w)) (allMessages c))
        /\ (messageIndex (hooks w) <= length (allMessages c))%nat
        /\ length (displayedMessages (hooks w))
           = (length (transcript c) - 1 + messageIndex (hooks w))%nat).
Proof.
  intros Hne Hsess.
  destruct (session_settled continuation c w Hne Hsess)
    as [w0 Hlive Hw | i t k r Hstatic].
  - split; [congruence|]. intros _.
    destruct (synced_facts continuation c w0 Hw)
      as ((shown & HD & Hshown) & Hle).
    exists shown. split; [exact HD|]. split; [exact Hshown|].
    split; [exact Hle|].
    rewrite HD, length_app, length_slice_all_but_last.
    apply Forall2_length in Hshown. rewrite Hshown, length_firstn. lia.
  - split; [|congruence]. intros _. reflexivity.
Qed.

Lemma rebind_static_from_cooling c c' t k D r :
  status c' <> in_progress ->
  allMessages c <> [] ->
  exists w',
    rebind c' (cooling c t k D r) = Ok w'
    /\ displayedMessages (hooks w') = transcript c'
    /\ isTyping (hooks w') = false
    /\ timers w' = [].
Proof.
  intros Hs Hne. unfold rebind, cooling, initEffect.
  assert (CallStatus_eqb (status c') in_progress = false) as ->
    by (destruct (status c'); [reflexivity..|congruence]).
  grind.
  destruct (transcript_ref c =? transcript_ref c')%nat; grind.
  { eexists. repeat split. }
  destruct (Nat.leb_spec (length (allMessages c')) (length (allMessages c)));
    grind.
  { eexists. repeat split. }
  destruct (nth_error (allMessages c') (length (allMessages c))) eqn:E;
    [|apply nth_error_None in E; lia].
  grind. eexists. repeat split.
Qed.

Lemma quiescent_forever w :
  timers w = [] -> forall n, run n w = Ok ([], w).
Proof.
  intros Ht n. apply run_quiescent. unfold step. now rewrite Ht.
Qed.

(** X4.  When a live playback that is not typing (it waits in a pause or
    in the cooldown) is re-rendered with a call that is not in progress, the
    cleanup cancels its timer: the transcript of the new call is displayed,
    no timer is pending and no timer event ever happens. *)
Theorem rebind_to_static_outside_typing c c' w :
  playing c w ->
  isTyping (hooks w) = false ->
  status c' <> in_progress ->
  exists w',
    rebind c' w = Ok w'
    /\ displayedMessages (hooks w') = transcript c'
    /\ isTyping (hooks w') = false
    /\ timers w' = []
    /\ forall n, run n w' = Ok ([], w').
Proof.
  intros [i m t k D r Hm | i m j t k D Hm Hj | m0 t k D r Hm0] Hty Hs.
  - destruct (rebind_static_from_pausing continuation c c' i m t k D r Hs)
      as (w' & Hr & Hd & Ht & Htm).
    exists w'. repeat split; try assumption. now apply quiescent_forever.
  - discriminate Hty.
  - destruct (rebind_static_from_cooling c c' t k D r Hs)
      as (w' & Hr & Hd & Ht & Htm); [intros E; now rewrite E in Hm0|].
    exists w'. repeat split; try assumption. now apply quiescent_forever.
Qed.

(** X5.  Unmounting a live playback that is not typing cancels its only
    timer: nothing is pending afterwards and no timer event ever happens. *)
Theorem unmount_outside_typing c w :
  playing c w ->
  isTyping (hooks w) = false ->
  timers (unmount w) = []
  /\ hooks (unmount w) = hooks w
  /\ forall n, run n (unmount w) = Ok ([], unmount w).
Proof.
  intros [i m t k D r Hm | i m j t k D Hm Hj | m0 t k D r Hm0] Hty;
    [|discriminate Hty|].
  - assert (timers (unmount (pausing c i m t k D r)) = []) as Ht
      by (unfold unmount, pausing; grind; reflexivity).
    split; [exact Ht|]. split; [reflexivity|]. now apply quiescent_forever.
  - assert (timers (unmount (cooling c t k D r)) = []) as Ht
      by (unfold unmount, cooling; grind; reflexivity).
    split; [exact Ht|]. split; [reflexivity|]. now apply quiescent_forever.
Qed.

(** X6.  When a live playback that is not typing is re-rendered with
    another call in progress, the playback starts over on the new call: the
    new transcript without its last message is displayed, the index is 0
    and the one pending timer is the pause before the new call's first
    script message, counted from the moment of the re-render. *)
Theorem rebind_to_live_restarts c c' w m0 :
  playing c w ->
  isTyping (hooks w) = false ->
  status c' = in_progress ->
  transcript_ref c <> transcript_ref c' ->
  nth_error (allMessages c') 0 = Some m0 ->
  exists k',
    rebind c' w
    = Ok (pausing c' 0 m0 (now w) k'
            (slice (transcript c') 0 (Some (-1))) (typingRole (hooks w))).
Proof.
  intros [i m t k D r Hm | i m j t k D Hm Hj | m1 t k D r Hm1] Hty Hs Href Hm0;
    [|discriminate Hty|].
  - now apply rebind_live_from_pausing.
  - apply rebind_live_from_cooling; try assumption.
    intros E. now rewrite E in Hm1.
Qed.

End PlaybackInvariants.

(** * Properties of the form helpers *)

Lemma class_cover u :
  is_lower u || is_upper u || is_digit u
  || negb (is_lower u || is_upper u || is_digit u) = true.
Proof. destruct (is_lower u || is_upper u || is_digit u); reflexivity. Qed.

Lemma some_class (p : jsstring) :
  p <> [] ->
  existsb is_lower p || existsb is_upper p || existsb is_digit p
  || existsb (fun u => negb (is_lower u || is_upper u || is_digit u)) p
  = true.
Proof.
  destruct p as [|u r]; [congruence|]. intros _. cbn [existsb].
  pose proof (class_cover u) as H.
  destruct (is_lower u), (is_upper u), (is_digit u); cbn in *;
    try discriminate; rewrite ?orb_true_r; reflexivity.
Qed.

(** X8.  A password of fewer than 8 code units is weak whatever it
    contains, and a password of 12 code units or more is never weak. *)
Theorem password_length_bounds (password : jsstring) :
  ((length password < 8)%nat ->
   Password.getPasswordStrength password = Password.weak)
  /\ ((12 <= length password)%nat ->
      Password.getPasswordStrength password <> Password.weak).
Proof.
  unfold Password.getPasswordStrength. split; intros Hlen.
  - now rewrite (proj2 (Nat.ltb_lt _ _) Hlen).
  - rewrite (proj2 (Nat.ltb_ge _ _)) by lia.
    rewrite (proj2 (Nat.leb_le _ _) Hlen).
    assert (password <> []) as Hne by (destruct password; cbn in *; [lia|congruence]).
    pose proof (some_class password Hne) as Hc.
    destruct (existsb is_lower password), (existsb is_upper password),
      (existsb is_digit password), (existsb _ password);
      cbn in *; discriminate.
Qed.

(** X9.  A strong password has at least 8 code units and draws on at least
    three of the four classes (lower-case letter, upper-case letter, digit,
    anything else); with fewer than 12 code units it needs all four. *)
Theorem strong_password_classes (password : jsstring) :
  Password.getPasswordStrength password = Password.strong ->
  let classes :=
    (Nat.b2n (existsb is_lower password)
     + Nat.b2n (existsb is_upper password)
     + Nat.b2n (existsb is_digit password)
     + Nat.b2n (existsb
                  (fun u => negb (is_lower u || is_upper u || is_digit u))
                  password))%nat in
  (8 <= length password)%nat
  /\ (3 <= classes)%nat
  /\ ((length password < 12)%nat -> classes = 4%nat).
Proof.
  unfold Password.getPasswordStrength.
  destruct (Nat.ltb_spec (length password) 8); [discriminate|].
  destruct (Nat.leb_spec 12 (length password));
    destruct (existsb is_lower password), (existsb is_upper password),
      (existsb is_digit password), (existsb _ password);
    cbn; intros Hs; try discriminate; repeat split; lia.
Qed.

(** X10.  Adding code units to a password, in front or behind, never
    lowers its strength. *)
Theorem password_strength_monotone (p q : jsstring) :
  (Password.strengthSegments (Password.getPasswordStrength p)
   <= Password.strengthSegments (Password.getPasswordStrength (p ++ q)))%nat
  /\ (Password.strengthSegments (Password.getPasswordStrength p)
      <= Password.strengthSegments (Password.getPasswordStrength (q ++ p)))%nat.
Proof.
  unfold Password.getPasswordStrength.
  rewrite !existsb_app, !length_app.
  split.
  - destruct (Nat.ltb_spec (length p) 8),
      (Nat.ltb_spec (length p + length q) 8),
      (Nat.leb_spec 12 (length p)),
      (Nat.leb_spec 12 (length p + length q)); try lia;
    destruct (existsb is_lower p), (existsb is_upper p),
      (existsb is_digit p),
      (existsb (fun u => negb (is_lower u || is_upper u || is_digit u)) p),
      (existsb is_lower q), (existsb is_upper q), (existsb is_digit q),
      (existsb (fun u => negb (is_lower u || is_upper u || is_digit u)) q);
    cbn; lia.
  - destruct (Nat.ltb_spec (length p) 8),
      (Nat.ltb_spec (length q + length p) 8),
      (Nat.leb_spec 12 (length p)),
      (Nat.leb_spec 12 (length q + length p)); try lia;
    destruct (existsb is_lower p), (existsb is_upper p),
      (existsb is_digit p),
      (existsb (fun u => negb (is_lower u || is_upper u || is_digit u)) p),
      (existsb is_lower q), (existsb is_upper q), (existsb is_digit q),
      (existsb (fun u => negb (is_lower u || is_upper u || is_digit u)) q);
    cbn; lia.
Qed.

Lemma slice_from_start {A : Type} (l : list A) (n : Z) :
  0 <= n -> slice l 0 (Some n) = firstn (Z.to_nat n) l.
Proof.
  intros Hn. unfold slice, relative_index. change (0 <? 0) with false.
  destruct (n <? 0) eqn:E; [apply Z.ltb_lt in E; lia|].
  cbn [Z.to_nat]. rewrite Nat.min_0_l, Nat.sub_0_r. cbn [skipn].
  destruct (Nat.le_ge_cases (Z.to_nat n) (length l)) as [H|H].
  - now rewrite Nat.min_l.
  - rewrite Nat.min_r by exact H. now rewrite !firstn_all2 by lia.
Qed.

Lemma digitsOnly_firstn value limit :
  0 <= limit ->
  digitsOnly value limit = firstn (Z.to_nat limit) (filter is_digit value).
Proof. intros H. unfold digitsOnly. now apply slice_from_start. Qed.

Lemma filter_all {A : Type} (f : A -> bool) (l : list A) :
  forallb f l = true -> filter f l = l.
Proof.
  induction l as [|a l IH]; [reflexivity|]. cbn. intros H.
  apply andb_true_iff in H as [-> H]. now rewrite IH.
Qed.

Lemma forallb_firstn {A : Type} (f : A -> bool) (l : list A) (n : nat) :
  forallb f l = true -> forallb f (firstn n l) = true.
Proof.
  revert n. induction l as [|a l IH]; intros [|n] H; try reflexivity.
  cbn in *. apply andb_true_iff in H as [-> H]. now rewrite IH.
Qed.

Lemma forallb_filter {A : Type} (f : A -> bool) (l : list A) :
  forallb f (filter f l) = true.
Proof.
  induction l as [|a l IH]; [reflexivity|]. cbn.
  destruct (f a) eqn:E; [cbn; now rewrite E|exact IH].
Qed.

Lemma digitsOnly_sanitises value limit :
  0 <= limit ->
  let r := digitsOnly value limit in
  forallb is_digit r = true
  /\ (length r <= Z.to_nat limit)%nat
  /\ digitsOnly r limit = r
  /\ (forallb is_digit value = true -> (length value <= Z.to_nat limit)%nat ->
      r = value).
Proof.
  intros Hl r. subst r. rewrite !digitsOnly_firstn by exact Hl.
  assert (forallb is_digit (firstn (Z.to_nat limit) (filter is_digit value))
          = true) as Hd by apply forallb_firstn, forallb_filter.
  split; [exact Hd|]. split; [apply firstn_le_length|].
  split.
  - rewrite (filter_all _ _ Hd). rewrite firstn_firstn. f_equal. lia.
  - intros Hv Hlen. rewrite (filter_all _ _ Hv). now apply firstn_all2.
Qed.

(** X11.  What the phone field keeps of any input is its decimal digits,
    at most the first ten; the code field of the login form keeps at most
    the first six.  Sanitising a sanitised value changes nothing, and a
    value that already is ten (six) digits or fewer is kept as typed. *)
Theorem phone_and_code_fields_keep_digits (value : jsstring) :
  let phone := ForgotPassword.handlePhoneChange value in
  let code := Login.handleCodeChange value in
  Login.handlePhoneChange value = phone
  /\ forallb is_digit phone = true
  /\ (length phone <= 10)%nat
  /\ ForgotPassword.handlePhoneChange phone = phone
  /\ (forallb is_digit value = true -> (length value <= 10)%nat ->
      phone = value)
  /\ forallb is_digit code = true
  /\ (length code <= 6)%nat
  /\ Login.handleCodeChange code = code
  /\ (forallb is_digit value = true -> (length value <= 6)%nat ->
      code = value).
Proof.
  intros phone code.
  destruct (digitsOnly_sanitises value 10 ltac:(lia)) as (H1 & H2 & H3 & H4).
  destruct (digitsOnly_sanitises value 6 ltac:(lia)) as (H5 & H6 & H7 & H8).
  repeat split; assumption.
Qed.

Lemma array_set_length l : forall i v,
  (i < length l)%nat -> length (array_set l i v) = length l.
Proof.
  induction l as [|x l IH]; intros [|i] v H; cbn in *; try lia.
  now rewrite IH by lia.
Qed.

Lemma array_set_Forall (P : jsstring -> Prop) l : forall i v,
  Forall P l -> P v -> (i < length l)%nat -> Forall P (array_set l i v).
Proof.
  induction l as [|x l IH]; intros [|i] v Hl Hv H; cbn in *; try lia.
  - inversion Hl; subst. now constructor.
  - inversion Hl; subst. constructor; [assumption|]. apply IH; [assumption..|lia].
Qed.

Lemma otp_ok_set otp i v :
  ForgotPassword.otp_ok otp -> ForgotPassword.slot_ok v -> (i < 6)%nat ->
  ForgotPassword.otp_ok (array_set otp i v).
Proof.
  intros [Hlen Hall] Hv Hi. split.
  - rewrite array_set_length; lia.
  - apply array_set_Forall; [assumption..|lia].
Qed.

Lemma otp_ok_paste index (pairs : list (jsstring * nat)) :
  Forall (fun di => ForgotPassword.slot_ok (fst di)) pairs ->
  forall otp, ForgotPassword.otp_ok otp ->
  ForgotPassword.otp_ok
    (fold_left (fun acc di =>
                  if (index + snd di <? 6)%nat
                  then array_set acc (index + snd di) (fst di)
                  else acc) pairs otp).
Proof.
  induction 1 as [|di pairs Hdi _ IH]; intros otp Hotp; [exact Hotp|].
  cbn [fold_left]. apply IH.
  destruct (Nat.ltb_spec (index + snd di) 6); [|exact Hotp].
  now apply otp_ok_set.
Qed.

Lemma digit_slots (ds : jsstring) :
  forallb is_digit ds = true ->
  Forall ForgotPassword.slot_ok (map (fun d => [d]) ds).
Proof.
  induction ds as [|d ds IH]; cbn; intros H; [constructor|].
  apply andb_true_iff in H as [Hd H].
  constructor; [right; now exists d|now apply IH].
Qed.

Lemma length_code_le otp :
  Forall ForgotPassword.slot_ok otp ->
  (length (ForgotPassword.code otp) <= length otp)%nat.
Proof.
  unfold ForgotPassword.code.
  induction 1 as [|s otp Hs _ IH]; cbn; [lia|].
  rewrite length_app. destruct Hs as [->|(d & _ & ->)]; cbn; lia.
Qed.

(** X12.  The six slots of the verification code each hold nothing or one
    decimal digit, and every change of a slot keeps it so, whatever is typed
    or pasted into it: there are still six slots, the code they spell has at
    most six digits, and the slot asked to take the focus exists. *)
Theorem otp_slots_stay_well_formed otp index value :
  ForgotPassword.otp_ok otp ->
  (index < 6)%nat ->
  let r := ForgotPassword.handleOtpChange otp index value in
  ForgotPassword.otp_ok (fst r)
  /\ (length (ForgotPassword.code (fst r)) <= 6)%nat
  /\ forallb is_digit (ForgotPassword.code (fst r)) = true
  /\ (forall f, snd r = Some f -> (f < 6)%nat).
Proof.
  intros Hotp Hi r.
  assert (ForgotPassword.otp_ok (fst r)) as Hok.
  { subst r. unfold ForgotPassword.handleOtpChange.
    destruct (Nat.ltb_spec 1 (length value)) as [Hlen|Hlen]; cbn [fst].
    - apply otp_ok_paste; [|exact Hotp].
      apply Forall_forall. intros [s i] Hin. apply in_combine_l in Hin.
      cbn [fst]. revert s Hin. apply Forall_forall, digit_slots.
      apply (digitsOnly_sanitises value 6). lia.
    - apply otp_ok_set; [exact Hotp| |exact Hi].
      destruct value as [|u [|u' v]]; [now left| |cbn in Hlen; lia].
      cbn. destruct (is_digit u) eqn:E; [right; now exists u|now left]. }
  split; [exact Hok|]. destruct Hok as [Hlen Hall].
  split; [rewrite <- Hlen; now apply length_code_le|].
  split.
  - unfold ForgotPassword.code. clear -Hall.
    induction Hall as [|s l Hs _ IH]; [reflexivity|]. cbn.
    rewrite forallb_app, IH, andb_true_r.
    destruct Hs as [->|(d & Hd & ->)]; cbn; [reflexivity|now rewrite Hd].
  - subst r. unfold ForgotPassword.handleOtpChange. intros f.
    destruct (Nat.ltb_spec 1 (length value)); cbn [snd].
    + intros [= <-]. lia.
    + destruct (filter is_digit value); [discriminate|].
      destruct (Nat.ltb_spec index 5); [|discriminate]. intros [= <-]. lia.
Qed.

(** X13.  Pasting a text with six digits or more into the first slot
    replaces the whole code by the first six digits of the text, whatever
    the slots held, asks the focus for the last slot, and the form then
    moves on to step 3. *)
Theorem paste_fills_the_code otp value :
  length otp = 6%nat ->
  (1 < length value)%nat ->
  (6 <= length (filter is_digit value))%nat ->
  let r := ForgotPassword.handleOtpChange otp 0 value in
  fst r = map (fun d => [d]) (firstn 6 (filter is_digit value))
  /\ ForgotPassword.code (fst r) = firstn 6 (filter is_digit value)
  /\ snd r = Some 5%nat
  /\ ForgotPassword.handleStep2Next (fst r) = true.
Proof.
  intros Hotp Hlen Hdig r. subst r.
  unfold ForgotPassword.handleOtpChange, ForgotPassword.handleStep2Next,
    ForgotPassword.code.
  rewrite (proj2 (Nat.ltb_lt _ _) Hlen).
  rewrite (digitsOnly_firstn value 6) by lia.
  change (Z.to_nat 6) with 6%nat.
  destruct (filter is_digit value) as [|d0 [|d1 [|d2 [|d3 [|d4 [|d5 ds]]]]]];
    cbn in Hdig; try lia.
  destruct otp as [|o0 [|o1 [|o2 [|o3 [|o4 [|o5 [|o6 os]]]]]]];
    cbn in Hotp; try lia.
  cbn. repeat split.
Qed.

(** X14.  With well-formed slots the form leaves step 2 for step 3 exactly
    when every slot holds a digit. *)
Theorem step2_needs_every_slot otp :
  ForgotPassword.otp_ok otp ->
  ForgotPassword.handleStep2Next otp = true
  <-> Forall (fun s => s <> []) otp.
Proof.
  intros [Hlen Hall]. unfold ForgotPassword.handleStep2Next.
  rewrite Nat.eqb_eq.
  assert (forall l, Forall ForgotPassword.slot_ok l ->
            (length (ForgotPassword.code l) = length l
             <-> Forall (fun s => s <> []) l)) as Hgen.
  { clear. intros l Hl. induction Hl as [|s l Hs Hl IH]; [now split|].
    pose proof (length_code_le l Hl) as Hle.
    unfold ForgotPassword.code in *. cbn. rewrite length_app.
    destruct Hs as [->|(d & _ & ->)]; cbn.
    - split; [lia|]. intros H. inversion H; subst. congruence.
    - split.
      + intros H. constructor; [discriminate|]. apply IH. lia.
      + intros H. inversion H; subst. f_equal. now apply IH. }
  rewrite <- Hlen. now apply Hgen.
Qed.

(** * Properties of the formatting helpers *)

Lemma uint_units_digits d : forallb is_digit (uint_units d) = true.
Proof. induction d; cbn; auto. Qed.

Lemma Number_toString_digits z :
  0 <= z -> forallb is_digit (Number_toString z) = true.
Proof.
  intros Hz. unfold Number_toString.
  destruct z as [|p|p]; [reflexivity|apply uint_units_digits|lia].
Qed.

Lemma split_at_colon (l1 l2 r1 r2 : jsstring) :
  forallb is_digit l1 = true -> forallb is_digit l2 = true ->
  l1 ++ 58%N :: r1 = l2 ++ 58%N :: r2 -> l1 = l2 /\ r1 = r2.
Proof.
  revert l2. induction l1 as [|a l1 IH]; intros [|b l2] H1 H2 H; cbn in *.
  - injection H as <-. now split.
  - injection H as <- _. discriminate.
  - injection H as -> _. discriminate.
  - injection H as -> H.
    apply andb_true_iff in H1 as [_ H1]. apply andb_true_iff in H2 as [_ H2].
    destruct (IH l2 H1 H2 H) as [-> ->]. now split.
Qed.

Lemma two_digits r :
  0 <= r < 100 -> padStart (Number_toString r) 2 (utf16 "0") = pad 2 r.
Proof.
  intros Hr.
  assert (forallb (fun n => jsstring_eqb
                     (padStart (Number_toString (Z.of_nat n)) 2 (utf16 "0"))
                     (pad 2 (Z.of_nat n))) (seq 0 100) = true) as Hall
    by (vm_compute; reflexivity).
  rewrite forallb_forall in Hall.
  specialize (Hall (Z.to_nat r)). rewrite Z2Nat.id in Hall by lia.
  assert (forall a b, jsstring_eqb a b = true -> a = b) as Heq.
  { induction a as [|x a IH]; intros [|y b] H; try discriminate; [reflexivity|].
    cbn in H. apply andb_true_iff in H as [Hx H]. apply N.eqb_eq in Hx.
    subst. f_equal. now apply IH. }
  apply Heq, Hall, in_seq. lia.
Qed.

Lemma pad2_inj a b : 0 <= a < 100 -> 0 <= b < 100 -> pad 2 a = pad 2 b -> a = b.
Proof.
  intros Ha Hb H. cbn [pad app] in H. injection H as H1 H2.
  assert (0 <= 48 + (a / 10) mod 10 /\ 0 <= 48 + a mod 10
          /\ 0 <= 48 + (b / 10) mod 10 /\ 0 <= 48 + b mod 10)
    as (Ha1 & Ha2 & Hb1 & Hb2) by (Z.div_mod_to_equations; lia).
  apply (Z2N.inj _ _ Ha1 Hb1) in H1. apply (Z2N.inj _ _ Ha2 Hb2) in H2.
  Z.div_mod_to_equations. lia.
Qed.

Lemma padStart_length s n u : (n <= length (padStart s n [u]))%nat.
Proof.
  unfold padStart. destruct (Nat.leb_spec n (length s)); [assumption|].
  cbv beta iota zeta. rewrite length_app, length_firstn.
  set (k := (n - length s)%nat).
  assert (forall j, length (concat (repeat ([u] : jsstring) j)) = j) as Hrep
    by (induction j as [|j IH]; cbn; [reflexivity|now rewrite IH]).
  rewrite (Hrep k). lia.
Qed.

(** X15.  A duration of a whole number of seconds between 0 and
    [MAX_SAFE_INTEGER] is shown in the call detail as the minutes in
    decimal, a colon and the seconds modulo 60 in exactly two digits; two
    different durations of that range are never shown alike. *)
Theorem duration_is_minutes_and_two_digit_seconds (seconds : Z) :
  0 <= seconds <= MAX_SAFE_INTEGER ->
  Modal.formatDuration seconds
  = Number_toString (seconds / 60) ++ utf16 ":" ++ pad 2 (seconds mod 60)
  /\ forall seconds', 0 <= seconds' <= MAX_SAFE_INTEGER ->
       Modal.formatDuration seconds' = Modal.formatDuration seconds ->
       seconds' = seconds.
Proof.
  intros [Hs _].
  assert (forall s, 0 <= s ->
            Modal.formatDuration s
            = Number_toString (s / 60) ++ 58%N :: pad 2 (s mod 60)) as Hshape.
  { intros s H. unfold Modal.formatDuration.
    rewrite Z.rem_mod_nonneg by lia.
    rewrite two_digits by (pose proof (Z.mod_pos_bound s 60); lia).
    reflexivity. }
  split; [apply (Hshape seconds Hs)|].
  intros s' [Hs' _] Heq. rewrite (Hshape s' Hs'), (Hshape seconds Hs) in Heq.
  apply split_at_colon in Heq as [Hm Hsec];
    try (apply Number_toString_digits; apply Z.div_pos; lia).
  apply Number_toString_inj in Hm.
  apply pad2_inj in Hsec;
    try (pose proof (Z.mod_pos_bound s' 60);
         pose proof (Z.mod_pos_bound seconds 60); lia).
  rewrite (Z.div_mod s' 60), (Z.div_mod seconds 60) by lia. now rewrite Hm, Hsec.
Qed.

(** X16.  The list of calls and the call detail show every whole number of
    seconds alike, except zero: the list shows "-" for it and for nothing
    else, the detail shows "0:00". *)
Theorem list_and_detail_durations (seconds : Z) :
  (CallRecords.formatDuration seconds = utf16 "-" <-> seconds = 0)
  /\ (seconds <> 0 ->
      CallRecords.formatDuration seconds = Modal.formatDuration seconds)
  /\ Modal.formatDuration 0 = utf16 "0:00".
Proof.
  assert (Modal.formatDuration seconds <> utf16 "-") as Hne.
  { intros H. apply (f_equal (@length _)) in H.
    unfold Modal.formatDuration in H. rewrite !length_app in H.
    pose proof (padStart_length (Number_toString (Z.rem seconds 60)) 2 48%N).
    change (utf16 "0") with [48%N] in H. cbn in H. lia. }
  unfold CallRecords.formatDuration.
  destruct (Z.eqb_spec seconds 0) as [->|Hnz].
  - split; [now split|]. split; [congruence|reflexivity].
  - split; [|split; [reflexivity|reflexivity]]. split; [|congruence].
    intros H. now apply Hne in H.
Qed.

Lemma length_pad w : forall n, length (pad w n) = w.
Proof.
  induction w as [|w IH]; intros n; [reflexivity|].
  cbn [pad]. rewrite length_app, IH. cbn. lia.
Qed.

Lemma civil_year_range days :
  0 <= days < 2932897 ->
  1970 <= fst (fst (civil_from_days days)) <= 9999.
Proof.
  intros H. unfold civil_from_days.
  set (z := days + 719468).
  set (era := z / 146097).
  set (doe := z - era * 146097).
  set (yoe := (doe - doe / 1460 + doe / 36524 - doe / 146096) / 365).
  set (doy := doe - (365 * yoe + yoe / 4 - yoe / 100)).
  set (mp := (5 * doy + 2) / 153).
  cbv zeta. cbn [fst].
  destruct (mp <? 10) eqn:E1.
  - apply Z.ltb_lt in E1. destruct (mp + 3 <=? 2) eqn:E2;
      [apply Z.leb_le in E2|apply Z.leb_gt in E2];
      subst mp doy yoe doe era z; Z.div_mod_to_equations; lia.
  - apply Z.ltb_ge in E1. destruct (mp - 9 <=? 2) eqn:E2;
      [apply Z.leb_le in E2|apply Z.leb_gt in E2];
      subst mp doy yoe doe era z; Z.div_mod_to_equations; lia.
Qed.

Lemma length_toISOString ms :
  0 <= ms < 253402300800000 -> length (toISOString ms) = 24%nat.
Proof.
  intros H. unfold toISOString.
  assert (0 <= ms / 86400000 < 2932897) as Hd
    by (Z.div_mod_to_equations; lia).
  pose proof (civil_year_range _ Hd) as Hy.
  destruct (civil_from_days (ms / 86400000)) as [[y m] d]. cbn [fst] in Hy.
  unfold year_string.
  rewrite (proj2 (Z.leb_le 0 y)), (proj2 (Z.leb_le y 9999)) by lia.
  cbn [andb]. rewrite !length_app, !length_pad. reflexivity.
Qed.

(** X7.  A message committed by the playback at a clock between 1970 and
    the end of year 9999 carries a timestamp of exactly 24 code units, so
    the call detail renders its time through the locale and never as the
    "--:--" it shows for an empty timestamp. *)
Theorem committed_message_shows_a_time
    (toLocaleTimeString : jsstring -> jsstring) (m : CallMessage) (t : Z) :
  0 <= t < 253402300800000 ->
  length (timestamp (newMessage m t)) = 24%nat
  /\ Modal.formatTime toLocaleTimeString (timestamp (newMessage m t))
     = toLocaleTimeString (toISOString t)
  /\ Modal.formatTime toLocaleTimeString [] = utf16 "--:--".
Proof.
  intros Ht. pose proof (length_toISOString t Ht) as Hlen.
  split; [exact Hlen|]. split; [|reflexivity].
  cbn [timestamp newMessage]. unfold Modal.formatTime.
  destruct (toISOString t); [discriminate|reflexivity].
Qed.

(** * Properties of the list of calls *)

Lemma page_is_chunk {A : Type} (l : list A) (p : Z) :
  1 <= p ->
  CallRecords.paginatedCalls l p
  = firstn 10 (skipn (10 * Z.to_nat (p - 1)) l).
Proof.
  intros Hp. unfold CallRecords.paginatedCalls, CallRecords.pageSize, slice,
    relative_index.
  destruct ((p - 1) * 10 <? 0) eqn:E1; [apply Z.ltb_lt in E1; lia|].
  destruct ((p - 1) * 10 + 10 <? 0) eqn:E2; [apply Z.ltb_lt in E2; lia|].
  replace (Z.to_nat ((p - 1) * 10)) with (10 * Z.to_nat (p - 1))%nat by lia.
  replace (Z.to_nat ((p - 1) * 10 + 10)) with (10 * Z.to_nat (p - 1) + 10)%nat
    by lia.
  set (k := (10 * Z.to_nat (p - 1))%nat).
  destruct (Nat.le_ge_cases k (length l)) as [Hk|Hk].
  - rewrite (Nat.min_l k) by exact Hk.
    destruct (Nat.le_ge_cases (k + 10) (length l)) as [Hk'|Hk'].
    + rewrite Nat.min_l by exact Hk'. f_equal. lia.
    + rewrite Nat.min_r by exact Hk'.
      rewrite (firstn_all2 (n := 10)) by (rewrite length_skipn; lia).
      apply firstn_all2. rewrite length_skipn. lia.
  - rewrite !Nat.min_r by lia. rewrite Nat.sub_diag.
    rewrite (skipn_all2 (n := k)) by exact Hk. now rewrite firstn_nil.
Qed.

Lemma chunks_concat {A : Type} (n : nat) : forall (l : list A),
  (length l <= 10 * n)%nat ->
  concat (map (fun p => firstn 10 (skipn (10 * p) l)) (seq 0 n)) = l.
Proof.
  induction n as [|n IH]; intros l Hl.
  - destruct l; [reflexivity|cbn in Hl; lia].
  - cbn [seq map concat]. rewrite <- seq_shift, map_map.
    transitivity (firstn 10 l ++ skipn 10 l); [|apply firstn_skipn].
    f_equal.
    rewrite <- (IH (skipn 10 l)) by (rewrite length_skipn; lia).
    f_equal. apply map_ext. intros p.
    rewrite skipn_skipn. f_equal. f_equal. lia.
Qed.

Lemma totalPages_bounds {A : Type} (l : list A) :
  0 <= CallRecords.totalPages l
  /\ Z.of_nat (length l) <= 10 * CallRecords.totalPages l
  /\ 10 * (CallRecords.totalPages l - 1) < Z.of_nat (length l)
     \/ (length l = 0%nat /\ CallRecords.totalPages l = 0).
Proof.
  unfold CallRecords.totalPages, CallRecords.pageSize.
  destruct (length l) as [|n]; [right; now split|left].
  Z.div_mod_to_equations. lia.
Qed.

Lemma page_not_empty {A : Type} (l : list A) (p : Z) :
  1 <= p <= CallRecords.totalPages l -> CallRecords.paginatedCalls l p <> [].
Proof.
  intros Hp H. pose proof (totalPages_bounds l) as Hb.
  rewrite page_is_chunk in H by lia.
  apply (f_equal (@length _)) in H.
  rewrite length_firstn, length_skipn in H. cbn [length] in H.
  destruct Hb as [Hb|[_ Hb]]; lia.
Qed.


(** X17.  The pages 1 to [totalPages] of the list of calls, one after the
    other, are the filtered list: no call is lost or shown twice.  Every
    page holds at most ten calls, each of these pages holds at least one,
    and a page after the last one is empty (the filters leave [currentPage]
    as it is, so the table is empty on such a page even when calls match). *)
Theorem pages_partition_the_list {A : Type} (filteredCalls : list A) :
  let total := CallRecords.totalPages filteredCalls in
  concat (map (fun p => CallRecords.paginatedCalls filteredCalls (Z.of_nat p))
            (seq 1 (Z.to_nat total)))
  = filteredCalls
  /\ (forall p, 1 <= p ->
        (length (CallRecords.paginatedCalls filteredCalls p) <= 10)%nat)
  /\ (forall p, 1 <= p <= total ->
        CallRecords.paginatedCalls filteredCalls p <> [])
  /\ (forall p, total < p -> CallRecords.paginatedCalls filteredCalls p = []).
Proof.
  intros total.
  pose proof (totalPages_bounds filteredCalls) as Hb. fold total in Hb.
  split; [|split; [|split]].
  - rewrite <- seq_shift, map_map.
    transitivity
      (concat (map (fun p => firstn 10 (skipn (10 * p) filteredCalls))
                 (seq 0 (Z.to_nat total))));
      [|apply chunks_concat; destruct Hb as [Hb|[Hb _]]; lia].
    f_equal. apply map_ext. intros p.
    rewrite page_is_chunk by lia. do 3 f_equal. lia.
  - intros p Hp. rewrite page_is_chunk by exact Hp. apply firstn_le_length.
  - intros p Hp. now apply page_not_empty.
  - intros p Hp.
    assert (1 <= p) by (destruct Hb as [Hb|[_ Hb]]; lia).
    rewrite page_is_chunk by assumption.
    rewrite skipn_all2; [now rewrite firstn_nil|].
    destruct Hb as [Hb|[Hb _]]; lia.
Qed.

(** X18.  From a page between 1 and [totalPages] the two page buttons lead
    to a page between 1 and [totalPages] again, so to a page that is not
    empty; the previous button does nothing on page 1 only, the next button
    on the last page only, and previous undoes next. *)
Theorem page_buttons_stay_in_range {A : Type} (filteredCalls : list A) (p : Z) :
  let total := CallRecords.totalPages filteredCalls in
  1 <= p <= total ->
  1 <= CallRecords.previousPage p <= total
  /\ 1 <= CallRecords.nextPage total p <= total
  /\ CallRecords.paginatedCalls filteredCalls (CallRecords.previousPage p) <> []
  /\ CallRecords.paginatedCalls filteredCalls (CallRecords.nextPage total p)
     <> []
  /\ (CallRecords.previousPage p = p <-> p = 1)
  /\ (CallRecords.nextPage total p = p <-> p = total)
  /\ (p < total ->
      CallRecords.previousPage (CallRecords.nextPage total p) = p).
Proof.
  intros total Hp. unfold CallRecords.previousPage, CallRecords.nextPage.
  split; [lia|]. split; [lia|].
  split; [apply page_not_empty; fold total; lia|].
  split; [apply page_not_empty; fold total; lia|].
  repeat split; lia.
Qed.

Lemma jsstring_eqb_eq a b : jsstring_eqb a b = true <-> a = b.
Proof.
  revert b. induction a as [|x a IH]; intros [|y b]; cbn;
    try (split; [discriminate|discriminate]); [now split|].
  rewrite andb_true_iff, N.eqb_eq, IH. split.
  - now intros [-> ->].
  - intros [= -> ->]. now split.
Qed.

Lemma has_In s x : CallRecords.has s x = true <-> In x s.
Proof.
  unfold CallRecords.has. rewrite existsb_exists. split.
  - intros (y & Hy & E). apply jsstring_eqb_eq in E. now subst.
  - intros H. exists x. split; [exact H|now apply jsstring_eqb_eq].
Qed.

Lemma has_false s x : CallRecords.has s x = false <-> ~ In x s.
Proof.
  rewrite <- has_In. destruct (CallRecords.has s x); split;
    [discriminate|congruence|congruence|reflexivity].
Qed.

Lemma In_add s x y : In y (CallRecords.add s x) <-> In y s \/ y = x.
Proof.
  unfold CallRecords.add. destruct (CallRecords.has s x) eqn:E.
  - apply has_In in E. split; [now left|]. intros [H| ->]; assumption.
  - rewrite in_app_iff. cbn. intuition (subst; auto).
Qed.

Lemma NoDup_add s x : NoDup s -> NoDup (CallRecords.add s x).
Proof.
  intros H. unfold CallRecords.add. destruct (CallRecords.has s x) eqn:E;
    [exact H|].
  apply has_false in E. apply NoDup_app; [exact H|repeat constructor; auto|].
  intros y Hy [<-|[]]. contradiction.
Qed.

Lemma In_delete s x y : In y (CallRecords.delete s x) <-> In y s /\ y <> x.
Proof.
  unfold CallRecords.delete. rewrite filter_In, negb_true_iff. split.
  - intros [H E]. split; [exact H|]. intros ->.
    now rewrite (proj2 (jsstring_eqb_eq x x) eq_refl) in E.
  - intros [H Hne]. split; [exact H|].
    destruct (jsstring_eqb x y) eqn:E; [|reflexivity].
    apply jsstring_eqb_eq in E. congruence.
Qed.

Lemma newSet_app l : forall acc,
  NoDup acc ->
  NoDup (fold_left CallRecords.add l acc)
  /\ forall y, In y (fold_left CallRecords.add l acc) <-> In y acc \/ In y l.
Proof.
  induction l as [|x l IH]; intros acc Hacc; cbn [fold_left].
  - split; [exact Hacc|]. intros y. cbn. tauto.
  - destruct (IH (CallRecords.add acc x) (NoDup_add acc x Hacc)) as [H1 H2].
    split; [exact H1|]. intros y. rewrite H2, In_add. cbn. intuition.
Qed.

Lemma newSet_NoDup_id l : forall acc,
  NoDup (acc ++ l) -> fold_left CallRecords.add l acc = acc ++ l.
Proof.
  induction l as [|x l IH]; intros acc H; cbn [fold_left].
  - now rewrite app_nil_r.
  - assert (CallRecords.add acc x = acc ++ [x]) as ->.
    { unfold CallRecords.add.
      destruct (CallRecords.has acc x) eqn:E; [|reflexivity].
      apply has_In in E. apply NoDup_remove_2 in H.
      exfalso. apply H. apply in_or_app. now left. }
    rewrite IH; rewrite <- app_assoc; [reflexivity|exact H].
Qed.

Lemma newSet_copy s : NoDup s -> CallRecords.newSet s = s.
Proof. intros H. now apply (newSet_NoDup_id s []). Qed.

Lemma has_iff s s' :
  (forall y, In y s <-> In y s') ->
  forall y, CallRecords.has s y = CallRecords.has s' y.
Proof.
  intros H y. destruct (CallRecords.has s' y) eqn:E.
  - apply has_In. apply H. now apply has_In.
  - apply has_false. rewrite H. now apply has_false.
Qed.

Lemma delete_absent s x : ~ In x s -> CallRecords.delete s x = s.
Proof.
  intros H. unfold CallRecords.delete. apply filter_all.
  apply forallb_forall. intros y Hy. apply negb_true_iff.
  destruct (jsstring_eqb x y) eqn:E; [|reflexivity].
  apply jsstring_eqb_eq in E. congruence.
Qed.

(** X19.  Ticking the box of a call opens its window when it is closed and
    closes it when it is open, and touches no other window; the set of open
    windows stays free of repetitions.  Ticking twice gives back the same
    open windows, in the same order when the window was closed at first. *)
Theorem toggle_call_window (prev : list jsstring) (callId : jsstring) :
  NoDup prev ->
  let next := CallRecords.toggleCallWindow prev callId in
  NoDup next
  /\ CallRecords.has next callId = negb (CallRecords.has prev callId)
  /\ (forall y, y <> callId ->
        CallRecords.has next y = CallRecords.has prev y)
  /\ length next
     = (if CallRecords.has prev callId
        then length prev - 1 else length prev + 1)%nat
  /\ (forall y, CallRecords.has (CallRecords.toggleCallWindow next callId) y
                = CallRecords.has prev y)
  /\ (CallRecords.has prev callId = false ->
      CallRecords.toggleCallWindow next callId = prev).
Proof.
  intros Hnd next. subst next. unfold CallRecords.toggleCallWindow.
  rewrite (newSet_copy prev Hnd).
  destruct (CallRecords.has prev callId) eqn:E.
  - apply has_In in E.
    assert (NoDup (CallRecords.delete prev callId)) as Hnd'
      by (apply NoDup_filter; exact Hnd).
    assert (~ In callId (CallRecords.delete prev callId)) as Hout
      by (rewrite In_delete; tauto).
    rewrite (newSet_copy _ Hnd'), (proj2 (has_false _ _) Hout).
    split; [exact Hnd'|]. split; [reflexivity|].
    split; [|split; [|split; [|discriminate]]].
    + intros y Hy. destruct (CallRecords.has prev y) eqn:E'.
      * apply has_In, In_delete. apply has_In in E'. now split.
      * apply has_false. rewrite In_delete. apply has_false in E'. tauto.
    + clear Hnd' Hout. induction prev as [|a prev IH]; [destruct E|].
      inversion Hnd as [|? ? Ha Hnd']; subst.
      unfold CallRecords.delete in *. cbn [filter].
      destruct (jsstring_eqb callId a) eqn:Ea.
      * apply jsstring_eqb_eq in Ea. subst a. cbn [negb].
        fold (CallRecords.delete prev callId).
        rewrite (delete_absent _ _ Ha). cbn. lia.
      * cbn [negb length]. destruct E as [->|E];
          [now rewrite (proj2 (jsstring_eqb_eq _ _) eq_refl) in Ea|].
        rewrite (IH Hnd' E). destruct prev; [destruct E|cbn; lia].
    + apply has_iff. intros z. rewrite In_add, In_delete.
      split; [intros [[H _]| ->]; assumption|].
      intros Hz. destruct (list_eq_dec N.eq_dec z callId); tauto.
  - pose proof (proj1 (has_false _ _) E) as Hout.
    assert (CallRecords.add prev callId = prev ++ [callId]) as Hadd
      by (unfold CallRecords.add; now rewrite E).
    assert (NoDup (prev ++ [callId])) as Hnd'
      by (rewrite <- Hadd; now apply NoDup_add).
    rewrite Hadd, (newSet_copy _ Hnd').
    assert (CallRecords.has (prev ++ [callId]) callId = true) as ->
      by (apply has_In, in_or_app; right; now left).
    assert (CallRecords.delete (prev ++ [callId]) callId = prev) as Hdel.
    { unfold CallRecords.delete. rewrite filter_app. cbn [filter].
      rewrite (proj2 (jsstring_eqb_eq callId callId) eq_refl). cbn [negb].
      rewrite app_nil_r. now apply delete_absent. }
    rewrite Hdel.
    split; [exact Hnd'|]. split; [reflexivity|].
    split; [|split; [|split; [reflexivity|reflexivity]]].
    + intros y Hy. destruct (CallRecords.has prev y) eqn:E'.
      * apply has_In, in_or_app. left. now apply has_In.
      * apply has_false. rewrite in_app_iff. cbn. apply has_false in E'.
        intuition congruence.
    + rewrite length_app. reflexivity.
Qed.

(** X20.  Ticking the box of the table header opens exactly the windows of
    the calls of the page, whatever was open before, and the box then shows
    as ticked when the page has a call; unticking it closes every window.
    Closing one window of the page unticks the box. *)
Theorem select_page (pageIds : list jsstring) (x : jsstring) :
  let opened := CallRecords.selectPage pageIds true in
  NoDup opened
  /\ (forall y, CallRecords.has opened y = true <-> In y pageIds)
  /\ CallRecords.pageChecked pageIds opened = (0 <? length pageIds)%nat
  /\ CallRecords.selectPage pageIds false = []
  /\ CallRecords.pageChecked pageIds [] = false
  /\ (In x pageIds ->
      CallRecords.pageChecked pageIds
        (CallRecords.toggleCallWindow opened x) = false).
Proof.
  intros opened. subst opened. unfold CallRecords.selectPage.
  destruct (newSet_app pageIds [] (NoDup_nil _)) as [Hnd Hin].
  fold (CallRecords.newSet pageIds) in Hnd, Hin.
  assert (forall y, CallRecords.has (CallRecords.newSet pageIds) y = true
                    <-> In y pageIds) as Hhas.
  { intros y. rewrite has_In, Hin. cbn. tauto. }
  split; [exact Hnd|]. split; [exact Hhas|]. split; [|split; [reflexivity|split]].
  - unfold CallRecords.pageChecked.
    assert (forallb (CallRecords.has (CallRecords.newSet pageIds)) pageIds
            = true) as ->
      by (apply forallb_forall; intros y Hy; now apply Hhas).
    apply andb_true_r.
  - unfold CallRecords.pageChecked. destruct pageIds; reflexivity.
  - intros Hx. unfold CallRecords.pageChecked. apply andb_false_iff. right.
    unfold CallRecords.toggleCallWindow.
    rewrite (newSet_copy _ Hnd), (proj2 (Hhas x) Hx).
    destruct (forallb _ pageIds) eqn:E; [|reflexivity].
    rewrite forallb_forall in E. specialize (E x Hx).
    apply has_In, In_delete in E. tauto.
Qed.

(** X21.  After a code is sent the countdown shows 60; one second at a
    time it goes down by one, the resend stays blocked while it is positive,
    and after exactly 60 ticks it is 0, no timeout is pending, the resend is
    possible again and the value never moves further. *)
Theorem countdown_runs_sixty_seconds (s : Countdown.State) (k : nat) :
  Countdown.countdown s <= 0 ->
  let sent := Countdown.setCountdown (fun _ => 60) s in
  ((k <= 60)%nat ->
   Countdown.countdown (Countdown.ticks k sent) = 60 - Z.of_nat k
   /\ Countdown.now (Countdown.ticks k sent)
      = Countdown.now s + 1000 * Z.of_nat k
   /\ Countdown.canResend (Countdown.ticks k sent) = (k =? 60)%nat)
  /\ ((60 <= k)%nat ->
      Countdown.ticks k sent
      = Countdown.mkState (Countdown.now s + 60000) 0 None).
Proof.
  intros Hs sent.
  assert (sent = Countdown.mkState (Countdown.now s) 60
                   (Some (Countdown.now s + 1000))) as Hsent.
  { subst sent. unfold Countdown.setCountdown.
    destruct (Z.eqb_spec 60 (Countdown.countdown s)); [lia|reflexivity]. }
  assert (forall j t c, 0 < c -> Z.of_nat j <= c ->
            Countdown.ticks j (Countdown.mkState t c (Some (t + 1000)))
            = Countdown.effect
                (Countdown.mkState (t + 1000 * Z.of_nat j)
                   (c - Z.of_nat j) None)) as Hrun.
  { induction j as [|j IH]; intros t c Hc Hj.
    - cbn [Countdown.ticks Z.of_nat].
      rewrite Z.mul_0_r, Z.add_0_r, Z.sub_0_r.
      unfold Countdown.effect. cbn [Countdown.countdown Countdown.now].
      destruct (Z.leb_spec c 0); [lia|reflexivity].
    - cbn [Countdown.ticks]. unfold Countdown.tick at 1.
      cbn [Countdown.timer Countdown.now Countdown.countdown].
      unfold Countdown.setCountdown.
      cbn [Countdown.timer Countdown.now Countdown.countdown].
      destruct (Z.eqb_spec (c - 1) c); [lia|].
      rewrite Z.max_r by lia.
      destruct (Z.eq_dec c 1) as [->|Hc1].
      + assert (j = 0%nat) as -> by lia. reflexivity.
      + unfold Countdown.effect at 1. cbn [Countdown.countdown Countdown.now].
        destruct (Z.leb_spec (c - 1) 0); [lia|].
        rewrite IH by lia.
        replace (t + 1000 + 1000 * Z.of_nat j)
          with (t + 1000 * Z.of_nat (S j)) by lia.
        replace (c - 1 - Z.of_nat j) with (c - Z.of_nat (S j)) by lia.
        reflexivity. }
  assert (forall j, Countdown.ticks j
                      (Countdown.mkState (Countdown.now s + 60000) 0 None)
                    = Countdown.mkState (Countdown.now s + 60000) 0 None)
    as Hstop by (induction j; [reflexivity|assumption]).
  split.
  - intros Hk. rewrite Hsent, Hrun by lia. unfold Countdown.effect, Countdown.canResend.
    cbn [Countdown.countdown Countdown.now].
    destruct (Z.leb_spec (60 - Z.of_nat k) 0);
      cbn [Countdown.countdown Countdown.now];
      (split; [reflexivity|split; [reflexivity|]]).
    + assert (k = 60%nat) as -> by lia. reflexivity.
    + rewrite (proj2 (Nat.eqb_neq k 60)) by lia.
      rewrite (proj2 (Z.ltb_lt 0 _)) by lia. reflexivity.
  - intros Hk. replace k with (60 + (k - 60))%nat by lia.
    assert (forall a b st, Countdown.ticks (a + b) st
                           = Countdown.ticks b (Countdown.ticks a st)) as Happ.
    { induction a as [|a IH]; intros b st; [reflexivity|]. cbn. apply IH. }
    rewrite Happ, Hsent, Hrun by lia. unfold Countdown.effect at 1.
    cbn [Countdown.countdown Countdown.now].
    replace (60 - Z.of_nat 60) with 0 by lia. cbn [Z.leb Z.compare].
    replace (Countdown.now s + 1000 * Z.of_nat 60)
      with (Countdown.now s + 60000) by lia.
    apply Hstop.
Qed.

(** * The further properties at concrete inputs *)

(** X2 at the call with three messages so far, bound by a re-render of
    the greeting call during the pause that follows its first commit, 20
    timer events later. *)
Lemma one_timer_at_a_time_witness :
  exists w0 es w,
    rebind simulatedContinuation order_call greeting_said = Ok w0
    /\ run simulatedContinuation 20 w0 = Ok (es, w)
    /\ length (timers w) = 1%nat.
Proof.
  destruct (rebind_never_throws simulatedContinuation order_call greeting_said)
    as [w0 Hb].
  destruct (run_never_throws simulatedContinuation 20 w0) as (es & w & Hr).
  exists w0, es, w. split; [exact Hb|]. split; [exact Hr|].
  refine (proj1 (proj2 (one_timer_at_a_time simulatedContinuation order_call w
                          ltac:(discriminate) _) eq_refl)).
  apply (session_run simulatedContinuation order_call 20 w0 es w); [|exact Hr].
  apply (session_rebind simulatedContinuation greeting_call order_call
           greeting_said w0 (proj2 (proj2 greeting_said_in_session)) eq_refl);
    [cbv; discriminate|exact Hb].
Defined.

(** X3 at the same point of the same session. *)
Lemma displayed_follows_script_witness :
  exists w0 es w,
    rebind simulatedContinuation order_call greeting_said = Ok w0
    /\ run simulatedContinuation 20 w0 = Ok (es, w)
    /\ length (displayedMessages (hooks w))
       = (2 + messageIndex (hooks w))%nat.
Proof.
  destruct (rebind_never_throws simulatedContinuation order_call greeting_said)
    as [w0 Hb].
  destruct (run_never_throws simulatedContinuation 20 w0) as (es & w & Hr).
  exists w0, es, w. split; [exact Hb|]. split; [exact Hr|].
  destruct (proj2 (displayed_follows_script simulatedContinuation order_call w
                     ltac:(discriminate)
                     (session_run simulatedContinuation order_call 20 w0 es w
                        (session_rebind simulatedContinuation greeting_call
                           order_call greeting_said w0
                           (proj2 (proj2 greeting_said_in_session)) eq_refl
                           ltac:(cbv; discriminate) Hb)
                        Hr))
              eq_refl)
    as (shown & _ & _ & _ & Hl).
  exact Hl.
Defined.

(** X4 at the greeting call in its first pause, bound to the completed
    call. *)
Lemma rebind_to_static_outside_typing_witness :
  exists w',
    rebind simulatedContinuation completed_call
      (pausing greeting_call 0 msgHello t_bind 1 [] ai) = Ok w'
    /\ displayedMessages (hooks w') = history
    /\ timers w' = [].
Proof.
  destruct (rebind_to_static_outside_typing simulatedContinuation
              greeting_call completed_call
              (pausing greeting_call 0 msgHello t_bind 1 [] ai)
              (playing_pausing simulatedContinuation greeting_call 0 msgHello
                 t_bind 1 [] ai eq_refl)
              eq_refl ltac:(discriminate))
    as (w' & Hr & Hd & _ & Ht & _).
  exists w'. repeat split; assumption.
Defined.

(** X5 at the greeting call in its first pause. *)
Lemma unmount_outside_typing_witness :
  timers (unmount (pausing greeting_call 0 msgHello t_bind 1 [] ai)) = [].
Proof.
  exact (proj1 (unmount_outside_typing simulatedContinuation greeting_call
                  (pausing greeting_call 0 msgHello t_bind 1 [] ai)
                  (playing_pausing simulatedContinuation greeting_call 0
                     msgHello t_bind 1 [] ai eq_refl)
                  eq_refl)).
Defined.

(** X6 at the greeting call in its first pause, bound to the call with
    three messages so far. *)
Lemma rebind_to_live_restarts_witness :
  exists k',
    rebind simulatedContinuation order_call
      (pausing greeting_call 0 msgHello t_bind 1 [] ai)
    = Ok (pausing order_call 0 (nth 2 history msgA) t_bind k'
            (firstn 2 history) ai).
Proof.
  exact (rebind_to_live_restarts simulatedContinuation greeting_call
           order_call (pausing greeting_call 0 msgHello t_bind 1 [] ai)
           (nth 2 history msgA)
           (playing_pausing simulatedContinuation greeting_call 0 msgHello
              t_bind 1 [] ai eq_refl)
           eq_refl eq_refl ltac:(discriminate) eq_refl).
Defined.

(** X7 at the greeting committed at 2024-05-01T10:00:00.980Z. *)
Lemma committed_message_shows_a_time_witness :
  Modal.formatTime (fun ts => ts) (timestamp (newMessage msgHello (t_bind + 980)))
  = utf16 "2024-05-01T10:00:00.980Z".
Proof.
  exact (proj1 (proj2 (committed_message_shows_a_time (fun ts => ts) msgHello
                         (t_bind + 980) ltac:(unfold t_bind; lia)))).
Defined.

(** X9 at a password with all four classes. *)
Lemma strong_password_classes_witness :
  Password.getPasswordStrength (utf16 "Abcdef1!") = Password.strong
  /\ (8 <= length (utf16 "Abcdef1!"))%nat.
Proof.
  split; [reflexivity|].
  exact (proj1 (strong_password_classes (utf16 "Abcdef1!") eq_refl)).
Defined.

(** X12 at the empty form, the digit 7 typed into the third slot. *)
Lemma otp_slots_stay_well_formed_witness :
  ForgotPassword.otp_ok
    (fst (ForgotPassword.handleOtpChange (repeat [] 6) 2 (utf16 "7"))).
Proof.
  refine (proj1 (otp_slots_stay_well_formed (repeat [] 6) 2 (utf16 "7")
                   (conj eq_refl _) _)).
  - repeat (apply Forall_cons; [left; reflexivity|]). apply Forall_nil.
  - lia.
Defined.

(** X13 at the empty form, "123456" pasted into the first slot. *)
Lemma paste_fills_the_code_witness :
  ForgotPassword.code
    (fst (ForgotPassword.handleOtpChange (repeat [] 6) 0 (utf16 "123456")))
  = utf16 "123456".
Proof.
  refine (proj1 (proj2 (paste_fills_the_code (repeat [] 6) (utf16 "123456")
                          eq_refl _ _))); cbn; lia.
Defined.

(** X14 at a form with one empty slot. *)
Lemma step2_needs_every_slot_witness :
  ForgotPassword.handleStep2Next
    [utf16 "1"; utf16 "2"; []; utf16 "4"; utf16 "5"; utf16 "6"] = true
  <-> Forall (fun s => s <> [])
        [utf16 "1"; utf16 "2"; []; utf16 "4"; utf16 "5"; utf16 "6"].
Proof.
  apply step2_needs_every_slot. split; [reflexivity|].
  repeat (apply Forall_cons;
          [first [left; reflexivity
                 | right; eexists; split; [|reflexivity]; reflexivity]|]).
  apply Forall_nil.
Defined.

(** X15 at 125 seconds. *)
Lemma duration_is_minutes_and_two_digit_seconds_witness :
  Modal.formatDuration 125 = utf16 "2:05".
Proof.
  exact (proj1 (duration_is_minutes_and_two_digit_seconds 125
                  ltac:(unfold MAX_SAFE_INTEGER; lia))).
Defined.

(** X18 at 25 calls, page 2 of 3. *)
Lemma page_buttons_stay_in_range_witness :
  CallRecords.totalPages (seq 0 25) = 3
  /\ 1 <= CallRecords.previousPage 2 <= 3
  /\ 1 <= CallRecords.nextPage 3 2 <= 3.
Proof.
  split; [reflexivity|].
  destruct (page_buttons_stay_in_range (seq 0 25) 2 ltac:(cbv; intuition discriminate))
    as (H1 & H2 & _).
  split; [exact H1|exact H2].
Defined.

(** X19 at one open window, another call ticked. *)
Lemma toggle_call_window_witness :
  CallRecords.has
    (CallRecords.toggleCallWindow [utf16 "call_001"] (utf16 "call_002"))
    (utf16 "call_002")
  = true.
Proof.
  refine (proj1 (proj2 (toggle_call_window [utf16 "call_001"]
                          (utf16 "call_002") _))).
  repeat constructor. intros [].
Defined.

(** X21 at the mounted form, 60 ticks after the code is sent. *)
Lemma countdown_runs_sixty_seconds_witness :
  Countdown.ticks 60
    (Countdown.setCountdown (fun _ => 60) (Countdown.mount 0))
  = Countdown.mkState 60000 0 None.
Proof.
  refine (proj2 (countdown_runs_sixty_seconds (Countdown.mount 0) 60 _) _).
  - cbn. lia.
  - lia.
Defined.

(** X8 at a three-letter password and at thirteen code units. *)
Lemma password_length_bounds_witness :
  Password.getPasswordStrength (utf16 "abc") = Password.weak
  /\ Password.getPasswordStrength (utf16 "aaaaaaaaaaaa1") <> Password.weak.
Proof.
  split.
  - exact (proj1 (password_length_bounds (utf16 "abc")) ltac:(cbn; lia)).
  - exact (proj2 (password_length_bounds (utf16 "aaaaaaaaaaaa1"))
             ltac:(cbn; lia)).
Defined.

(** X11 at a ten-digit phone number and at a six-digit code. *)
Lemma phone_and_code_fields_keep_digits_witness :
  ForgotPassword.handlePhoneChange (utf16 "4155550123") = utf16 "4155550123"
  /\ Login.handleCodeChange (utf16 "123456") = utf16 "123456".
Proof.
  split.
  - exact (proj1 (proj2 (proj2 (proj2 (proj2
             (phone_and_code_fields_keep_digits (utf16 "4155550123"))))))
             eq_refl ltac:(cbn; lia)).
  - exact (proj2 (proj2 (proj2 (proj2 (proj2 (proj2 (proj2 (proj2
             (phone_and_code_fields_keep_digits (utf16 "123456")))))))))
             eq_refl ltac:(cbn; lia)).
Defined.

(** X16 at 125 seconds. *)
Lemma list_and_detail_durations_witness :
  CallRecords.formatDuration 125 = Modal.formatDuration 125.
Proof.
  exact (proj1 (proj2 (list_and_detail_durations 125)) ltac:(lia)).
Defined.

(** X17 at a list of 25 calls: three pages, the third not empty, the
    fourth empty. *)
Lemma pages_partition_the_list_witness :
  (length (CallRecords.paginatedCalls (seq 0 25) 1) <= 10)%nat
  /\ CallRecords.paginatedCalls (seq 0 25) 3 <> []
  /\ CallRecords.paginatedCalls (seq 0 25) 4 = [].
Proof.
  pose proof (pages_partition_the_list (seq 0 25)) as (_ & H1 & H2 & H3).
  split; [apply H1; lia|].
  split; [apply H2; vm_compute; split; discriminate|].
  apply H3. reflexivity.
Defined.

(** X20 at a page of two calls, the window of the first closed again. *)
Lemma select_page_witness :
  CallRecords.pageChecked [utf16 "c1"; utf16 "c2"]
    (CallRecords.toggleCallWindow
       (CallRecords.selectPage [utf16 "c1"; utf16 "c2"] true) (utf16 "c1"))
  = false.
Proof.
  apply (proj2 (proj2 (proj2 (proj2 (proj2
           (select_page [utf16 "c1"; utf16 "c2"] (utf16 "c1"))))))).
  left. reflexivity.
Defined.
